(** * The spaCy service's asynchronous job pipeline

    A shallow embedding of the job queue of [micros/spaCy]: the Redis
    wrapper ([services/redis_service.py]), the HTTP handlers that submit and
    query jobs ([app.py]), the worker ([workers/redis_consumer.py]) and the
    job and document models ([models/job.py], [models/document.py]).

    Python dictionaries are JSON values whose objects keep their insertion
    order; exceptions are an explicit outcome; the Redis server is a keyspace
    with a clock in seconds; whether a call to the server raises is read from
    a schedule carried by the world, so that every theorem quantifies over
    the connection failures the handlers have to survive. *)

From Stdlib Require Import ZArith NArith Ascii.
From Stdlib Require QArith.
From stdpp Require Import gmap strings list fin_maps pretty sorting.

Open Scope string_scope.

(** ** Python values *)

(** What the handlers compute with: the values [json.loads] returns and, as
    [VTime], the [datetime] objects of the models.  A [datetime] object
    carries the text [str] and [isoformat()] write for it.  The only floats
    of the pipeline are the progress values [0.0] and [100.0], kept as
    integers. *)
#[warnings="-register-all"]
Inductive value : Type :=
  | VNone
  | VBool (b : bool)
  | VNum (z : Z)
  | VStr (s : string)
  | VTime (text : string)
  | VList (items : list value)
  | VDict (fields : list (string * value)).

(** Truth value of [if x:] / [if not x:]. *)
Definition truthy (v : value) : bool :=
  match v with
  | VNone => false
  | VBool b => b
  | VNum z => negb (z =? 0)%Z
  | VStr s => negb (String.eqb s "")
  | VTime _ => true
  | VList items => match items with [] => false | _ => true end
  | VDict fields => match fields with [] => false | _ => true end
  end.

(** [d.get(k)] *)
Fixpoint dict_get (k : string) (d : list (string * value)) : option value :=
  match d with
  | [] => None
  | (k', v) :: rest => if String.eqb k k' then Some v else dict_get k rest
  end.

(** [d[k] = v]: an existing key keeps its position, a new one goes last. *)
Fixpoint dict_set (k : string) (v : value) (d : list (string * value))
  : list (string * value) :=
  match d with
  | [] => [(k, v)]
  | (k', v') :: rest =>
      if String.eqb k k' then (k, v) :: rest else (k', v') :: dict_set k v rest
  end.

(** A dictionary display that unpacks [extra] after the entries [base]. *)
Definition dict_update (base extra : list (string * value))
  : list (string * value) :=
  fold_left (fun acc kv => dict_set (fst kv) (snd kv) acc) extra base.

(** ** Exceptions *)

Inductive exn : Type :=
  | Exception (msg : string)
  | HTTPException (status_code : Z) (detail : string).

(** [str(e)] *)
Definition str_exn (e : exn) : string :=
  match e with
  | Exception msg => msg
  | HTTPException code detail => pretty code +:+ ": " +:+ detail
  end.

Inductive outcome (A : Type) : Type :=
  | Ret (a : A)
  | Raise (e : exn).
Arguments Ret {A} a.
Arguments Raise {A} e.

(** ** The Redis server *)

(** A stored string or list element: JSON text, given by the value it
    decodes to, or text that [json.loads] rejects, given with the message of
    the decoding error. *)
Inductive wire : Type :=
  | Encoded (v : value)
  | Malformed (text : string) (error : string).

(** What [default=str] makes of a value: a [datetime] object is written as
    its text. *)
Fixpoint jsonify (v : value) : value :=
  match v with
  | VTime text => VStr text
  | VList items => VList (map jsonify items)
  | VDict fields => VDict (map (fun kv => (fst kv, jsonify (snd kv))) fields)
  | _ => v
  end.

(** [json.dumps(v, default=str)] *)
Definition json_dumps (v : value) : wire := Encoded (jsonify v).

Definition json_loads (m : wire) : outcome value :=
  match m with
  | Encoded v => Ret v
  | Malformed _ error => Raise (Exception error)
  end.

(** One keyspace for both kinds of key.  A list has its left end (the end of
    LPUSH) at the head.  Every string of the pipeline is written by SETEX and
    carries the time at which it expires. *)
Inductive entry : Type :=
  | EString (payload : wire) (expires_at : N)
  | EList (items : list wire).

Record Broker : Type := mkBroker {
  keys : gmap string entry;
  now : N                          (* server time, in seconds *)
}.

Definition set_keys (b : Broker) (ks : gmap string entry) : Broker :=
  {| keys := ks; now := now b |}.

(** The entry a command sees: an expired string is gone, and so is a list
    without elements. *)
Definition live (b : Broker) (k : string) : option entry :=
  match keys b !! k with
  | Some (EString p exp) =>
      if (exp <=? now b)%N then None else Some (EString p exp)
  | Some (EList []) => None
  | other => other
  end.

Definition WRONGTYPE : exn :=
  Exception "WRONGTYPE Operation against a key holding the wrong kind of value".

(** LPUSH key value: insert at the head; the reply is the new length. *)
Definition redis_lpush (k : string) (m : wire) (b : Broker)
  : outcome nat * Broker :=
  match live b k with
  | None => (Ret 1, set_keys b (<[k := EList [m]]> (keys b)))
  | Some (EList items) =>
      (Ret (S (length items)), set_keys b (<[k := EList (m :: items)]> (keys b)))
  | Some (EString _ _) => (Raise WRONGTYPE, b)
  end.

(** [socket_timeout] of the connection ([_connect]): the client gives up
    on a reply that takes longer. *)
Definition socket_timeout : N := 5.

Definition TimeoutError : exn := Exception "Timeout reading from socket".

(** The wait of a blocking command with nothing to pop.  The server would
    reply nil after [timeout] seconds; when the socket timeout is shorter
    the client raises before that reply comes. *)
Definition blocked_wait {A} (timeout : N) (b : Broker) : outcome (option A) * Broker :=
  if (socket_timeout <? timeout)%N
  then (Raise TimeoutError, {| keys := keys b; now := (now b + socket_timeout)%N |})
  else (Ret None, {| keys := keys b; now := (now b + timeout)%N |}).

(** BRPOP key timeout, as the client sees it: remove the element at the
    tail, or wait when there is none. *)
Definition redis_brpop (k : string) (timeout : N) (b : Broker)
  : outcome (option (string * wire)) * Broker :=
  match live b k with
  | None => blocked_wait timeout b
  | Some (EList items) =>
      match last items with
      | None => blocked_wait timeout b
      | Some m =>
          let rest := removelast items in
          (Ret (Some (k, m)),
           set_keys b (match rest with
                       | [] => delete k (keys b)
                       | _ => <[k := EList rest]> (keys b)
                       end))
      end
  | Some (EString _ _) => (Raise WRONGTYPE, b)
  end.

(** SETEX key seconds value *)
Definition redis_setex (k : string) (seconds : N) (m : wire) (b : Broker)
  : outcome unit * Broker :=
  (Ret tt, set_keys b (<[k := EString m (now b + seconds)%N]> (keys b))).

(** GET key *)
Definition redis_get (k : string) (b : Broker) : outcome (option wire) * Broker :=
  match live b k with
  | None => (Ret None, b)
  | Some (EString p _) => (Ret (Some p), b)
  | Some (EList _) => (Raise WRONGTYPE, b)
  end.

(** DEL key *)
Definition redis_delete (k : string) (b : Broker) : outcome nat * Broker :=
  (Ret (match live b k with Some _ => 1 | None => 0 end),
   set_keys b (delete k (keys b))).

(** LLEN key *)
Definition redis_llen (k : string) (b : Broker) : outcome nat * Broker :=
  match live b k with
  | None => (Ret 0, b)
  | Some (EList items) => (Ret (length items), b)
  | Some (EString _ _) => (Raise WRONGTYPE, b)
  end.

(** ** The world of a handler *)

Record World : Type := mkWorld {
  broker : Broker;       (* the shared Redis server *)
  faults : list bool;    (* outcome of the next calls to it: [true] raises *)
  clock : N;             (* number of [datetime.utcnow()] readings so far *)
  errlog : list string   (* what [logger.error] received, latest first *)
}.

Definition M (A : Type) : Type := World -> outcome A * World.

Definition ret {A} (a : A) : M A := fun w => (Ret a, w).

Definition raise {A} (e : exn) : M A := fun w => (Raise e, w).

Definition bind {A B} (m : M A) (k : A -> M B) : M B :=
  fun w =>
    match m w with
    | (Ret a, w') => k a w'
    | (Raise e, w') => (Raise e, w')
    end.

(** [try: m  except Exception as e: h e]; what [m] did before raising stays
    done. *)
Definition try_except {A} (m : M A) (h : exn -> M A) : M A :=
  fun w =>
    match m w with
    | (Ret a, w') => (Ret a, w')
    | (Raise e, w') => h e w'
    end.

Definition lift {A} (o : outcome A) : M A := fun w => (o, w).

Notation "'let!' x ':=' m 'in' k" := (bind m (fun x => k))
  (at level 10, x pattern, m at level 100, k at level 200).
Notation "m1 ;; m2" := (bind m1 (fun _ => m2))
  (at level 100, m2 at level 200, right associativity).

Definition ConnectionError : exn := Exception "Error connecting to Redis".

Definition set_broker (b : Broker) (w : World) : World :=
  {| broker := b; faults := faults w; clock := clock w; errlog := errlog w |}.

(** The schedule after one more call. *)
Definition consume (w : World) : World :=
  {| broker := broker w; faults := tl (faults w);
     clock := clock w; errlog := errlog w |}.

(** A call of the Redis client.  The schedule decides whether the call
    reaches the server; a call that does not leaves the server as it was.
    An exhausted schedule means a healthy connection. *)
Definition redis_call {A} (cmd : Broker -> outcome A * Broker) : M A :=
  fun w =>
    if hd false (faults w)
    then (Raise ConnectionError, consume w)
    else let (r, b') := cmd (broker w) in (r, set_broker b' (consume w)).

(** [datetime.utcnow()], as text. *)
Definition utcnow : M string :=
  fun w =>
    (Ret (pretty (clock w)),
     {| broker := broker w; faults := faults w;
        clock := (clock w + 1)%N; errlog := errlog w |}).

(** [logger.error(msg)] *)
Definition log_error (msg : string) : M unit :=
  fun w =>
    (Ret tt,
     {| broker := broker w; faults := faults w;
        clock := clock w; errlog := msg :: errlog w |}).

(** ** Configuration ([config.py]) *)

Definition SERVICE_VERSION : string := "1.0.0".
Definition NLP_QUEUE : string := "nlp:processing:queue".
Definition NLP_RESULTS_QUEUE : string := "nlp:results:queue".

(** ** Models ([models/job.py], [models/document.py]) *)

Inductive JobStatus : Type := PENDING | PROCESSING | COMPLETED | FAILED | CANCELLED.

(** [JobStatus.X.value] *)
Definition JobStatus_value (s : JobStatus) : string :=
  match s with
  | PENDING => "pending"
  | PROCESSING => "processing"
  | COMPLETED => "completed"
  | FAILED => "failed"
  | CANCELLED => "cancelled"
  end.

Definition JobStatus_of_value (s : string) : option JobStatus :=
  if String.eqb s "pending" then Some PENDING
  else if String.eqb s "processing" then Some PROCESSING
  else if String.eqb s "completed" then Some COMPLETED
  else if String.eqb s "failed" then Some FAILED
  else if String.eqb s "cancelled" then Some CANCELLED
  else None.

Definition ValidationError (field : string) : exn :=
  Exception ("validation error: " +:+ field).

Definition TypeError : exn := Exception "argument must be a mapping".

(** *** Datetime text *)

Definition digit_of (a : ascii) : option N :=
  let n := N_of_ascii a in
  if ((48 <=? n) && (n <=? 57))%N then Some (n - 48)%N else None.

(** Reads a number of exactly [digits] digits at the head of the text. *)
Fixpoint read_number (digits : nat) (acc : N) (s : string) : option (N * string) :=
  match digits with
  | O => Some (acc, s)
  | S k =>
      match s with
      | String a rest =>
          match digit_of a with
          | Some d => read_number k (10 * acc + d)%N rest
          | None => None
          end
      | EmptyString => None
      end
  end.

(** Reads one of the characters [allowed]. *)
Definition read_one_of (allowed : list ascii) (s : string) : option string :=
  match s with
  | String a rest => if existsb (Ascii.eqb a) allowed then Some rest else None
  | EmptyString => None
  end.

Definition leap_year (year : N) : bool :=
  ((year mod 4 =? 0) && (negb (year mod 100 =? 0) || (year mod 400 =? 0)))%N.

Definition days_in_month (year month : N) : N :=
  if (month =? 2)%N then (if leap_year year then 29 else 28)%N
  else if existsb (N.eqb month) [4; 6; 9; 11]%N then 30%N
  else 31%N.

Fixpoint all_digits (s : string) : bool :=
  match s with
  | EmptyString => true
  | String a rest =>
      match digit_of a with
      | Some _ => all_digits rest
      | None => false
      end
  end.

(** Nothing, or a point and one to six digits. *)
Definition fraction_text (s : string) : bool :=
  match s with
  | EmptyString => true
  | String a digits =>
      Ascii.eqb a "."
      && (1 <=? String.length digits)%nat && (String.length digits <=? 6)%nat
      && all_digits digits
  end.

(** The texts a [datetime] field is built from: date and time of day as
    [isoformat()] and [str] write them for a naive datetime,
    "YYYY-MM-DDTHH:MM:SS" with "T" or a space between the two and an optional
    fraction of a second.  The validation library reads further notations
    (offsets from UTC, numbers of seconds); they are rejected here, so no
    text is accepted that the library rejects. *)
Definition datetime_text (s : string) : bool :=
  default false
    ('(year, s) ← read_number 4 0 s;
     s ← read_one_of ["-"%char] s;
     '(month, s) ← read_number 2 0 s;
     s ← read_one_of ["-"%char] s;
     '(day, s) ← read_number 2 0 s;
     s ← read_one_of ["T"%char; " "%char] s;
     '(hour, s) ← read_number 2 0 s;
     s ← read_one_of [":"%char] s;
     '(minute, s) ← read_number 2 0 s;
     s ← read_one_of [":"%char] s;
     '(second, s) ← read_number 2 0 s;
     Some ((1 <=? year)%N
           && (1 <=? month)%N && (month <=? 12)%N
           && (1 <=? day)%N && (day <=? days_in_month year month)%N
           && (hour <=? 23)%N && (minute <=? 59)%N && (second <=? 59)%N
           && fraction_text s)).

Arguments datetime_text : simpl never.

(** The number written by a non-empty text of decimal digits. *)
Fixpoint digits_value (acc : N) (s : string) : option N :=
  match s with
  | EmptyString => Some acc
  | String a rest =>
      match digit_of a with
      | Some d => digits_value (10 * acc + d)%N rest
      | None => None
      end
  end.

Definition decimal_text (s : string) : option N :=
  match s with
  | EmptyString => None
  | _ => digits_value 0 s
  end.

(** Field validators.  They accept a value of the declared type and, for
    the fields of the queue entries that are no text, the plain notations
    the validation library coerces to the type.  Any other value is
    rejected, so that no dictionary is accepted that the library rejects. *)
Definition required_str (field : string) (d : list (string * value))
  : outcome string :=
  match dict_get field d with
  | Some (VStr s) => Ret s
  | _ => Raise (ValidationError field)
  end.

Definition optional_str (field : string) (d : list (string * value))
  : outcome (option string) :=
  match dict_get field d with
  | None | Some VNone => Ret None
  | Some (VStr s) => Ret (Some s)
  | Some _ => Raise (ValidationError field)
  end.

(** [Optional[Dict[str, Any]] = {}] *)
Definition optional_dict (field : string) (d : list (string * value))
  : outcome (option (list (string * value))) :=
  match dict_get field d with
  | None => Ret (Some [])
  | Some VNone => Ret None
  | Some (VDict m) => Ret (Some m)
  | Some _ => Raise (ValidationError field)
  end.

(** [datetime = Field(default_factory=datetime.utcnow)]: the factory runs
    when the field is absent, whatever the other fields hold. *)
Definition default_datetime (field : string) (d : list (string * value))
  : M string :=
  match dict_get field d with
  | None => utcnow
  | Some _ => ret ""
  end.

(** A [datetime] field takes a [datetime] object as it is and parses
    text. *)
Definition datetime_field (field default : string) (d : list (string * value))
  : outcome string :=
  match dict_get field d with
  | None => Ret default
  | Some (VTime text) => Ret text
  | Some (VStr s) =>
      if datetime_text s then Ret s else Raise (ValidationError field)
  | Some _ => Raise (ValidationError field)
  end.

(** [Optional[datetime] = None] *)
Definition optional_datetime (field : string) (d : list (string * value))
  : outcome (option string) :=
  match dict_get field d with
  | None | Some VNone => Ret None
  | Some (VTime text) => Ret (Some text)
  | Some (VStr s) =>
      if datetime_text s then Ret (Some s) else Raise (ValidationError field)
  | Some _ => Raise (ValidationError field)
  end.

(** Sequencing of field validators. *)
Definition and_then {A B} (o : outcome A) (k : A -> outcome B) : outcome B :=
  match o with
  | Ret a => k a
  | Raise e => Raise e
  end.

Definition opt_value {A} (f : A -> value) (o : option A) : value :=
  match o with
  | Some a => f a
  | None => VNone
  end.

Module Document.

Record t : Type := mk {
  id : string;
  content : string;
  metadata : option (list (string * value));
  created_at : string
}.

Definition validate (default_created_at : string) (d : list (string * value))
  : outcome t :=
  and_then (required_str "id" d) (fun i =>
  and_then (required_str "content" d) (fun c =>
  and_then (optional_dict "metadata" d) (fun m =>
  and_then (datetime_field "created_at" default_created_at d) (fun ca =>
  Ret {| id := i; content := c; metadata := m; created_at := ca |})))).

(** The constructor [Document], applied to the unpacked dictionary. *)
Definition init (data : value) : M t :=
  match data with
  | VDict d =>
      let! default := default_datetime "created_at" d in
      lift (validate default d)
  | _ => raise TypeError
  end.

(** [document.dict()] *)
Definition dict (doc : t) : value :=
  VDict [("id", VStr (id doc));
         ("content", VStr (content doc));
         ("metadata", opt_value VDict (metadata doc));
         ("created_at", VTime (created_at doc))].

End Document.

Module ProcessedDocument.

Record t : Type := mk {
  document : Document.t;
  analysis : value;                (* the [NLPAnalysis], as a dictionary *)
  processed_at : string;
  processing_version : string;
  model_used : string
}.

Definition dict (p : t) : value :=
  VDict [("document", Document.dict (document p));
         ("analysis", analysis p);
         ("processed_at", VTime (processed_at p));
         ("processing_version", VStr (processing_version p));
         ("model_used", VStr (model_used p))].

End ProcessedDocument.

Module ProcessingJob.

Record t : Type := mk {
  id : string;
  document_id : string;
  status : JobStatus;
  created_at : string;
  started_at : option string;
  completed_at : option string;
  error_message : option string;
  progress : Z;
  metadata : option (list (string * value))
}.

Definition status_field (d : list (string * value)) : outcome JobStatus :=
  match dict_get "status" d with
  | None => Ret PENDING
  | Some (VStr s) =>
      match JobStatus_of_value s with
      | Some st => Ret st
      | None => Raise (ValidationError "status")
      end
  | Some _ => Raise (ValidationError "status")
  end.

(** [float = 0.0]: a number, a boolean, or a number given as text. *)
Definition progress_field (d : list (string * value)) : outcome Z :=
  match dict_get "progress" d with
  | None => Ret 0%Z
  | Some (VNum z) => Ret z
  | Some (VBool b) => Ret (if b then 1 else 0)%Z
  | Some (VStr s) =>
      match decimal_text s with
      | Some n => Ret (Z.of_N n)
      | None => Raise (ValidationError "progress")
      end
  | Some _ => Raise (ValidationError "progress")
  end.

Definition validate (default_created_at : string) (d : list (string * value))
  : outcome t :=
  and_then (required_str "id" d) (fun i =>
  and_then (required_str "document_id" d) (fun di =>
  and_then (status_field d) (fun st =>
  and_then (datetime_field "created_at" default_created_at d) (fun ca =>
  and_then (optional_datetime "started_at" d) (fun sa =>
  and_then (optional_datetime "completed_at" d) (fun co =>
  and_then (optional_str "error_message" d) (fun em =>
  and_then (progress_field d) (fun pr =>
  and_then (optional_dict "metadata" d) (fun md =>
  Ret {| id := i; document_id := di; status := st; created_at := ca;
         started_at := sa; completed_at := co; error_message := em;
         progress := pr; metadata := md |}))))))))).

(** The constructor [ProcessingJob], applied to the unpacked dictionary. *)
Definition init (data : value) : M t :=
  match data with
  | VDict d =>
      let! default := default_datetime "created_at" d in
      lift (validate default d)
  | _ => raise TypeError
  end.

(** [job.dict()] *)
Definition dict (job : t) : value :=
  VDict [("id", VStr (id job));
         ("document_id", VStr (document_id job));
         ("status", VStr (JobStatus_value (status job)));
         ("created_at", VTime (created_at job));
         ("started_at", opt_value VTime (started_at job));
         ("completed_at", opt_value VTime (completed_at job));
         ("error_message", opt_value VStr (error_message job));
         ("progress", VNum (progress job));
         ("metadata", opt_value VDict (metadata job))].

Definition start_processing (job : t) : M t :=
  let! t := utcnow in
  ret {| id := id job; document_id := document_id job;
         status := PROCESSING;
         created_at := created_at job;
         started_at := Some t;
         completed_at := completed_at job;
         error_message := error_message job;
         progress := progress job; metadata := metadata job |}.

Definition complete_processing (job : t) : M t :=
  let! t := utcnow in
  ret {| id := id job; document_id := document_id job;
         status := COMPLETED;
         created_at := created_at job;
         started_at := started_at job;
         completed_at := Some t;
         error_message := error_message job;
         progress := 100%Z; metadata := metadata job |}.

Definition fail_processing (job : t) (error : string) : M t :=
  let! t := utcnow in
  ret {| id := id job; document_id := document_id job;
         status := FAILED;
         created_at := created_at job;
         started_at := started_at job;
         completed_at := Some t;
         error_message := Some error;
         progress := progress job; metadata := metadata job |}.

End ProcessingJob.

(** ** The Redis wrapper ([services/redis_service.py]) *)

Module RedisService.

Definition job_key (job_id : string) : string := "nlp:job:" +:+ job_id.

(** [publish_job_result(job_id, result)] *)
Definition publish_job_result (job_id : string) (result : list (string * value))
  : M bool :=
  try_except
    (let message :=
       VDict [("job_id", VStr job_id);
              ("result", VDict result);
              ("timestamp", opt_value id (dict_get "processed_at" result))] in
     redis_call (redis_lpush NLP_RESULTS_QUEUE (json_dumps message)) ;;
     ret true)
    (fun e =>
       log_error ("Failed to publish job result: " +:+ str_exn e) ;;
       ret false).

(** [type(v).__name__] *)
Definition type_name (v : value) : string :=
  match v with
  | VNone => "NoneType"
  | VBool _ => "bool"
  | VNum _ => "int"
  | VStr _ => "str"
  | VTime _ => "datetime.datetime"
  | VList _ => "list"
  | VDict _ => "dict"
  end.

(** [v.get] on a value that is no dictionary. *)
Definition AttributeError_get (v : value) : exn :=
  Exception ("'" +:+ type_name v +:+ "' object has no attribute 'get'").

(** [get_processing_job()]; Python's [None] is [VNone].  The message for
    [logger.debug] is built whatever the log level, and building it calls
    [job_data.get]. *)
Definition get_processing_job : M value :=
  try_except
    (let! result := redis_call (redis_brpop NLP_QUEUE 30) in
     match result with
     | Some (queue_name, message) =>
         let! job_data := lift (json_loads message) in
         match job_data with
         | VDict _ => ret job_data
         | _ => raise (AttributeError_get job_data)
         end
     | None => ret VNone
     end)
    (fun e =>
       log_error ("Failed to get processing job: " +:+ str_exn e) ;;
       ret VNone).

(** [if error:] on an [Optional[str]] *)
Definition error_given (error : option string) : bool :=
  match error with
  | Some s => negb (String.eqb s "")
  | None => false
  end.

(** The dictionary [update_job_status] stores. *)
Definition status_record (status : string) (progress : Z) (error : option string)
  : list (string * value) :=
  let job_data :=
    [("status", VStr status); ("progress", VNum progress); ("updated_at", VNone)] in
  if error_given error
  then dict_set "error" (opt_value VStr error) job_data
  else job_data.

(** [update_job_status(job_id, status, progress=0.0, error=None)] *)
Definition update_job_status (job_id status : string) (progress : Z)
    (error : option string) : M unit :=
  try_except
    (redis_call
       (redis_setex (job_key job_id) 3600
          (json_dumps (VDict (status_record status progress error)))))
    (fun e => log_error ("Failed to update job status: " +:+ str_exn e)).

(** [if job_data:] on the text GET replies with *)
Definition nonempty_text (m : wire) : bool :=
  match m with
  | Encoded _ => true
  | Malformed text _ => negb (String.eqb text "")
  end.

(** [get_job_status(job_id)] *)
Definition get_job_status (job_id : string) : M value :=
  try_except
    (let! job_data := redis_call (redis_get (job_key job_id)) in
     match job_data with
     | Some m => if nonempty_text m then lift (json_loads m) else ret VNone
     | None => ret VNone
     end)
    (fun e =>
       log_error ("Failed to get job status: " +:+ str_exn e) ;;
       ret VNone).

(** [get_queue_length(queue_name)] *)
Definition get_queue_length (queue_name : string) : M nat :=
  try_except
    (redis_call (redis_llen queue_name))
    (fun e =>
       log_error ("Failed to get queue length: " +:+ str_exn e) ;;
       ret 0).

(** [clear_queue(queue_name)] *)
Definition clear_queue (queue_name : string) : M bool :=
  try_except
    (redis_call (redis_delete queue_name) ;;
     ret true)
    (fun e =>
       log_error ("Failed to clear queue: " +:+ str_exn e) ;;
       ret false).

End RedisService.

Import RedisService.

(** ** The HTTP handlers ([app.py]) *)

(** The job [submit_job] builds: every field it does not pass takes its
    default. *)
Definition pending_job (job_id : string) (document : Document.t)
    (created : string) : ProcessingJob.t :=
  {| ProcessingJob.id := job_id;
     ProcessingJob.document_id := Document.id document;
     ProcessingJob.status := PENDING;
     ProcessingJob.created_at := created;
     ProcessingJob.started_at := None;
     ProcessingJob.completed_at := None;
     ProcessingJob.error_message := None;
     ProcessingJob.progress := 0;
     ProcessingJob.metadata := Some [("document", Document.dict document)] |}.

(** The client encodes the arguments of a command before it sends any of
    them, and refuses a dictionary. *)
Definition DataError : exn :=
  Exception
    "Invalid input of type: 'dict'. Convert to a bytes, string, int or float first.".

(** [redis_client.lpush(key, value)], the value being a dictionary: the
    client raises and the server receives nothing. *)
Definition redis_lpush_dict (k : string) (v : value) (b : Broker)
  : outcome nat * Broker :=
  (Raise DataError, b).

(** [POST /api/v1/jobs/submit]; [job_id] is the identifier [uuid.uuid4()]
    drew.  The job dictionary is handed to [lpush] as it is, not as JSON
    text. *)
Definition submit_job (job_id : string) (document : Document.t) : M value :=
  try_except
    (let! created := utcnow in
     let job := pending_job job_id document created in
     let job_data := ProcessingJob.dict job in
     let! queue_length := redis_call (redis_lpush_dict NLP_QUEUE job_data) in
     update_job_status job_id (JobStatus_value PENDING) 0 None ;;
     let! submitted := utcnow in
     ret (VDict [("job_id", VStr job_id);
                 ("document_id", VStr (Document.id document));
                 ("status", VStr (JobStatus_value PENDING));
                 ("submitted_at", VStr submitted);
                 ("queue_position", VNum (Z.of_nat queue_length))]))
    (fun e =>
       log_error ("Failed to submit job: " +:+ str_exn e) ;;
       raise (HTTPException 500 ("Job submission failed: " +:+ str_exn e))).

(** [GET /api/v1/jobs/{job_id}] *)
Definition get_job_status (job_id : string) : M value :=
  try_except
    (let! job_status := RedisService.get_job_status job_id in
     if negb (truthy job_status)
     then raise (HTTPException 404 "Job not found")
     else
       match job_status with
       | VDict fields =>
           ret (VDict (dict_update [("job_id", VStr job_id)] fields))
       | _ => raise (Exception "object is not a mapping")
       end)
    (fun e =>
       match e with
       | HTTPException _ _ => raise e
       | _ =>
           log_error ("Failed to get job status: " +:+ str_exn e) ;;
           raise (HTTPException 500 ("Failed to get job status: " +:+ str_exn e))
       end).

(** [POST /api/v1/admin/clear-queue] *)
Definition clear_processing_queue : M value :=
  try_except
    (let! success := clear_queue NLP_QUEUE in
     if success
     then ret (VDict [("message", VStr "Processing queue cleared successfully")])
     else raise (HTTPException 500 "Failed to clear queue"))
    (fun e =>
       log_error ("Failed to clear queue: " +:+ str_exn e) ;;
       raise (HTTPException 500 ("Failed to clear queue: " +:+ str_exn e))).

(** ** The worker ([workers/redis_consumer.py]) *)

Record RedisConsumer : Type := mkConsumer {
  running : bool;
  processed_count : nat
}.

Section Worker.

(** The analyzer, [NLPProcessor.process_document]: it returns the analysis
    of a document or raises. *)
Variable process_document : Document.t -> outcome value.

(** [config.SPACY_MODEL], read from the environment. *)
Variable SPACY_MODEL : string.

(** The result the worker publishes for a completed job. *)
Definition completed_result (job_id document_id : string)
    (processed_document : value) (processed_at : string)
  : list (string * value) :=
  [("job_id", VStr job_id);
   ("document_id", VStr document_id);
   ("processed_document", processed_document);
   ("status", VStr "completed");
   ("processed_at", VStr processed_at)].

(** The result the worker publishes for a failed job. *)
Definition failed_result (job_id document_id error_msg processed_at : string)
  : list (string * value) :=
  [("job_id", VStr job_id);
   ("document_id", VStr document_id);
   ("status", VStr "failed");
   ("error", VStr error_msg);
   ("processed_at", VStr processed_at)].

(** [job.metadata.get("document")] *)
Definition metadata_document (job : ProcessingJob.t) : outcome value :=
  match ProcessingJob.metadata job with
  | Some md => Ret (opt_value id (dict_get "document" md))
  | None => Raise (Exception "'NoneType' object has no attribute 'get'")
  end.

(** Lines 51 to 62: pop the next job, build the [ProcessingJob], mark it
    as processing.  [None] when the pop brought nothing. *)
Definition claim_job : M (option ProcessingJob.t) :=
  let! job_data := get_processing_job in
  if negb (truthy job_data)
  then ret None
  else
    let! job := ProcessingJob.init job_data in
    let! job := ProcessingJob.start_processing job in
    update_job_status (ProcessingJob.id job) (JobStatus_value PROCESSING) 0 None ;;
    ret (Some job).

(** Lines 65 to 83: extract the document and run the analyzer on it. *)
Definition analyse_job (job : ProcessingJob.t)
  : M (Document.t * ProcessedDocument.t) :=
  let! document_data := lift (metadata_document job) in
  if negb (truthy document_data)
  then raise (Exception "No document data in job")
  else
    let! document := Document.init document_data in
    let! analysis := lift (process_document document) in
    let! processed_at := utcnow in
    ret (document,
         {| ProcessedDocument.document := document;
            ProcessedDocument.analysis := analysis;
            ProcessedDocument.processed_at := processed_at;
            ProcessedDocument.processing_version := SERVICE_VERSION;
            ProcessedDocument.model_used := SPACY_MODEL |}).

(** Lines 85 to 104: record the completion, then publish the result. *)
Definition complete_job (self : RedisConsumer) (job : ProcessingJob.t)
    (document : Document.t) (processed_doc : ProcessedDocument.t)
  : M RedisConsumer :=
  let! job := ProcessingJob.complete_processing job in
  update_job_status (ProcessingJob.id job) (JobStatus_value COMPLETED) 100 None ;;
  let! published_at := utcnow in
  let result :=
    completed_result (ProcessingJob.id job) (Document.id document)
      (ProcessedDocument.dict processed_doc) published_at in
  let! success := publish_job_result (ProcessingJob.id job) result in
  if success
  then ret {| running := running self;
              processed_count := S (processed_count self) |}
  else
    log_error ("Failed to publish result for job " +:+ ProcessingJob.id job) ;;
    ret self.

(** The body of the inner [try]. *)
Definition process_job (self : RedisConsumer) (job : ProcessingJob.t)
  : M RedisConsumer :=
  let! analysed := analyse_job job in
  complete_job self job (fst analysed) (snd analysed).

(** The handler of the inner [try] (lines 106 to 123).  Nothing raises
    once the job object is marked completed, so the handler only ever
    sees the job as it entered the [try]. *)
Definition fail_job (self : RedisConsumer) (job : ProcessingJob.t) (e : exn)
  : M RedisConsumer :=
  let error_msg := "Failed to process document: " +:+ str_exn e in
  log_error ("Job " +:+ ProcessingJob.id job +:+ " failed: " +:+ error_msg) ;;
  let! job := ProcessingJob.fail_processing job error_msg in
  update_job_status (ProcessingJob.id job) (JobStatus_value FAILED) 0
    (Some error_msg) ;;
  let! processed_at := utcnow in
  let result :=
    failed_result (ProcessingJob.id job) (ProcessingJob.document_id job)
      error_msg processed_at in
  publish_job_result (ProcessingJob.id job) result ;;
  ret self.

(** [RedisConsumer._process_next_job] *)
Definition _process_next_job (self : RedisConsumer) : M RedisConsumer :=
  try_except
    (let! claimed := claim_job in
     match claimed with
     | None => ret self
     | Some job => try_except (process_job self job) (fail_job self job)
     end)
    (fun e =>
       log_error ("Error processing job: " +:+ str_exn e) ;;
       ret self).

(** [asyncio.sleep(seconds)]: time passes. *)
Definition sleep (seconds : N) : M unit :=
  fun w =>
    (Ret tt,
     set_broker {| keys := keys (broker w);
                   now := (now (broker w) + seconds)%N |} w).

(** The loop of [RedisConsumer.start].  The shutdown signal reaches the
    handler between two iterations; [iterations] counts the ones that run
    before it does. *)
Fixpoint start (iterations : nat) (self : RedisConsumer) : M RedisConsumer :=
  match iterations with
  | O => ret {| running := false; processed_count := processed_count self |}
  | S n =>
      let! self :=
        try_except
          (_process_next_job self)
          (fun e =>
             log_error ("Error in consumer loop: " +:+ str_exn e) ;;
             sleep 5 ;;
             ret self)
      in
      start n self
  end.

End Worker.


(** ** The cache of the Redis wrapper ([services/redis_service.py]) *)





(** ** The synchronous endpoints ([app.py]) *)

(** [NLPAnalysis()], every field at its default. *)
Definition NLPAnalysis_default : value :=
  VDict [("entities", VList []);
         ("classifications", VList []);
         ("key_phrases", VList []);
         ("language", VNone);
         ("language_confidence", VNone);
         ("embedding", VNone);
         ("sentiment", VNone);
         ("word_count", VNum 0);
         ("sentence_count", VNum 0);
         ("processing_time_ms", VNum 0)].

Module app.

Section Endpoints.

(** [nlp_processor.process_document], the analyzer. *)
Variable nlp_processor : Document.t -> outcome value.

(** [config.SPACY_MODEL] and [config.BATCH_SIZE], read from the
    environment. *)
Variable SPACY_MODEL : string.
Variable BATCH_SIZE : Z.

(** [POST /api/v1/process] *)
Definition process_document (document : Document.t) : M ProcessedDocument.t :=
  try_except
    (let! analysis := lift (nlp_processor document) in
     let! processed_at := utcnow in
     ret {| ProcessedDocument.document := document;
            ProcessedDocument.analysis := analysis;
            ProcessedDocument.processed_at := processed_at;
            ProcessedDocument.processing_version := SERVICE_VERSION;
            ProcessedDocument.model_used := SPACY_MODEL |})
    (fun e =>
       log_error ("Failed to process document " +:+ Document.id document
                    +:+ ": " +:+ str_exn e) ;;
       raise (HTTPException 500 ("Processing failed: " +:+ str_exn e))).

(** The body of the [for] loop of the batch endpoint. *)
Definition process_in_batch (document : Document.t) : M ProcessedDocument.t :=
  try_except
    (let! analysis := lift (nlp_processor document) in
     let! processed_at := utcnow in
     ret {| ProcessedDocument.document := document;
            ProcessedDocument.analysis := analysis;
            ProcessedDocument.processed_at := processed_at;
            ProcessedDocument.processing_version := SERVICE_VERSION;
            ProcessedDocument.model_used := SPACY_MODEL |})
    (fun e =>
       log_error ("Failed to process document " +:+ Document.id document
                    +:+ " in batch: " +:+ str_exn e) ;;
       let! processed_at := utcnow in
       ret {| ProcessedDocument.document := document;
              ProcessedDocument.analysis := NLPAnalysis_default;
              ProcessedDocument.processed_at := processed_at;
              ProcessedDocument.processing_version := SERVICE_VERSION;
              ProcessedDocument.model_used := SPACY_MODEL |}).

(** The [for] loop: [results] grows at its end. *)
Fixpoint process_each (documents : list Document.t)
    (results : list ProcessedDocument.t) : M (list ProcessedDocument.t) :=
  match documents with
  | [] => ret results
  | document :: rest =>
      let! result := process_in_batch document in
      process_each rest (results ++ [result])%list
  end.

(** [POST /api/v1/process/batch] *)
Definition process_documents_batch (documents : list Document.t)
  : M (list ProcessedDocument.t) :=
  try_except
    (if (BATCH_SIZE <? Z.of_nat (length documents))%Z
     then raise (HTTPException 400
                   ("Batch size exceeds maximum of " +:+ pretty BATCH_SIZE))
     else process_each documents [])
    (fun e =>
       log_error ("Batch processing failed: " +:+ str_exn e) ;;
       raise (HTTPException 500 ("Batch processing failed: " +:+ str_exn e))).

End Endpoints.

End app.

(** ** Entities and key phrases ([services/entity_extractor.py],
    [services/nlp_processor.py]) *)

(** A float is the rational it denotes; the code below compares floats and
    never computes with them. *)
Abbreviation float := QArith_base.Q.

(** A span of the parsed text, as spaCy hands it over: an entity of
    [doc.ents] or a chunk of [doc.noun_chunks]. *)
Module Span.

Record t : Type := mk {
  text : string;
  label_ : string;
  start_char : Z;
  end_char : Z
}.

End Span.

Module Entity.

Record t : Type := mk {
  text : string;
  type : string;
  start : Z;
  end_ : Z;
  confidence : option float
}.

End Entity.

Module KeyPhrase.

Record t : Type := mk {
  phrase : string;
  score : float
}.

End KeyPhrase.

(** The loop both functions use to drop duplicates: an element is kept when
    its key was not seen before, and its key is then remembered. *)
Fixpoint keep_first {A K : Type} `{Countable K} (key : A -> K) (seen : gset K)
    (items : list A) : list A :=
  match items with
  | [] => []
  | item :: rest =>
      if decide (key item ∈ seen)
      then keep_first key seen rest
      else item :: keep_first key ({[key item]} ∪ seen) rest
  end.

(** [sorted(items, key=score, reverse=True)]: a stable sort, largest score
    first. *)
Fixpoint insert_by_score {A : Type} (score : A -> float) (x : A) (sorted : list A)
  : list A :=
  match sorted with
  | [] => [x]
  | y :: rest =>
      if QArith_base.Qle_bool (score y) (score x)
      then x :: y :: rest
      else y :: insert_by_score score x rest
  end.

Definition sorted_by_score {A : Type} (score : A -> float) (items : list A)
  : list A :=
  foldr (insert_by_score score) [] items.

(** [d.get(key, default)] on a table of strings. *)
Fixpoint table_get (key : string) (table : list (string * string))
    (default : string) : string :=
  match table with
  | [] => default
  | (k, v) :: rest => if String.eqb key k then v else table_get key rest default
  end.

Module EntityExtractor.

(** [self.entity_mapping] *)
Definition entity_mapping : list (string * string) :=
  [("PERSON", "PERSON"); ("ORG", "ORGANIZATION"); ("GPE", "LOCATION");
   ("LOC", "LOCATION"); ("DATE", "DATE"); ("TIME", "TIME"); ("MONEY", "MONEY");
   ("PERCENT", "PERCENT"); ("PRODUCT", "PRODUCT"); ("EVENT", "EVENT");
   ("WORK_OF_ART", "WORK_OF_ART"); ("LAW", "LAW"); ("LANGUAGE", "LANGUAGE");
   ("NORP", "ORGANIZATION"); ("FAC", "LOCATION"); ("ORDINAL", "NUMBER");
   ("CARDINAL", "NUMBER"); ("QUANTITY", "QUANTITY")].

Section Extraction.

(** [str.strip], [str.lower] and [len] of Python. *)
Variable str_strip : string -> string.
Variable str_lower : string -> string.
Variable str_len : string -> nat.

(** [_calculate_confidence(ent)], a computation on floats. *)
Variable _calculate_confidence : Span.t -> float.

(** The first loop of [extract_entities]: the entities it builds. *)
Fixpoint built_entities (ents : list Span.t) : list Entity.t :=
  match ents with
  | [] => []
  | ent :: rest =>
      let entity_type := table_get (Span.label_ ent) entity_mapping (Span.label_ ent) in
      if (str_len (str_strip (Span.text ent)) <? 2)%nat
      then built_entities rest
      else
        {| Entity.text := str_strip (Span.text ent);
           Entity.type := entity_type;
           Entity.start := Span.start_char ent;
           Entity.end_ := Span.end_char ent;
           Entity.confidence := Some (_calculate_confidence ent) |}
          :: built_entities rest
  end.

(** [entity_key] of the second loop. *)
Definition entity_key (entity : Entity.t) : string * string :=
  (str_lower (Entity.text entity), Entity.type entity).

(** [extract_entities(doc)], on the entities of the document.  No step of
    the two loops raises on the spans spaCy hands over, so the handler that
    returns the empty list is left out. *)
Definition extract_entities (ents : list Span.t) : list Entity.t :=
  keep_first entity_key ∅ (built_entities ents).

End Extraction.

End EntityExtractor.

Module NLPProcessor.

Section KeyPhrases.

Variable str_strip : string -> string.
Variable str_lower : string -> string.
Variable str_len : string -> nat.

(** The two loops that collect the phrases: noun chunks at 0.8, then named
    entities at 0.9. *)
Definition collected_phrases (noun_chunks ents : list Span.t) : list KeyPhrase.t :=
  (map (fun chunk =>
          {| KeyPhrase.phrase := str_strip (Span.text chunk);
             KeyPhrase.score := QArith_base.Qmake 8 10 |})
     (filter (fun chunk => (2 < str_len (str_strip (Span.text chunk)))%nat)
        noun_chunks)
   ++
   map (fun ent =>
          {| KeyPhrase.phrase := Span.text ent;
             KeyPhrase.score := QArith_base.Qmake 9 10 |})
     ents)%list.

(** [_extract_key_phrases(doc)], on the noun chunks and the entities of the
    document. *)
Definition _extract_key_phrases (noun_chunks ents : list Span.t)
  : list KeyPhrase.t :=
  take 10
    (sorted_by_score KeyPhrase.score
       (keep_first (fun p => str_lower (KeyPhrase.phrase p)) ∅
          (collected_phrases noun_chunks ents))).

End KeyPhrases.

Section Batch.

(** [self.process_document] *)
Variable process_document : Document.t -> outcome value.

(** The body of the loop of [process_batch]. *)
Definition process_or_empty (doc : Document.t) : M value :=
  try_except
    (lift (process_document doc))
    (fun e =>
       log_error ("Failed to process document " +:+ Document.id doc
                    +:+ ": " +:+ str_exn e) ;;
       ret NLPAnalysis_default).

(** [process_batch(documents)] *)
Fixpoint process_batch_from (documents : list Document.t) (results : list value)
  : M (list value) :=
  match documents with
  | [] => ret results
  | doc :: rest =>
      let! analysis := process_or_empty doc in
      process_batch_from rest (results ++ [analysis])%list
  end.

Definition process_batch (documents : list Document.t) : M (list value) :=
  process_batch_from documents [].

End Batch.

End NLPProcessor.

(** * Vocabulary of the properties *)

(** The elements of a list key, left end first. *)
Definition queue_items (b : Broker) (k : string) : list wire :=
  match live b k with
  | Some (EList items) => items
  | _ => []
  end.

(** The status record the JobStore holds for a job, if any. *)
Definition stored_record (b : Broker) (job_id : string) : option value :=
  match live b (job_key job_id) with
  | Some (EString (Encoded v) _) => Some v
  | _ => None
  end.

(** Whether the [n]-th coming call to the server goes through. *)
Definition call_ok (n : nat) (w : World) : bool := negb (nth n (faults w) false).

(** No string is stored under the key, so that list commands are accepted. *)
Definition list_key (b : Broker) (k : string) : Prop :=
  match live b k with
  | Some (EString _ _) => False
  | _ => True
  end.

(** A producer of the work queue pushes a job with LPUSH, the command
    [submit_job] issues on the same key; [entry] is the value the pushed
    JSON text decodes to. *)
Definition enqueue (entry : value) (w : World) : World :=
  set_broker (snd (redis_lpush NLP_QUEUE (Encoded entry) (broker w))) w.

(** One push after the other, the head of the list first. *)
Fixpoint enqueue_all (entries : list value) (w : World) : World :=
  match entries with
  | [] => w
  | entry :: rest => enqueue_all rest (enqueue entry w)
  end.

(** A document as JSON. *)
Definition document_entry (document : Document.t) : value :=
  VDict [("id", VStr (Document.id document));
         ("content", VStr (Document.content document));
         ("metadata", opt_value VDict (Document.metadata document));
         ("created_at", VStr (Document.created_at document))].

(** A pending job as JSON, its document embedded in the metadata. *)
Definition job_entry (job_id : string) (document : Document.t) (created : string)
  : value :=
  VDict [("id", VStr job_id);
         ("document_id", VStr (Document.id document));
         ("status", VStr "pending");
         ("created_at", VStr created);
         ("progress", VNum 0);
         ("metadata", VDict [("document", document_entry document)])].

Definition empty_world : World :=
  {| broker := {| keys := ∅; now := 0 |}; faults := []; clock := 0; errlog := [] |}.

Definition sample_document (doc_id text : string) : Document.t :=
  {| Document.id := doc_id; Document.content := text;
     Document.metadata := Some []; Document.created_at := "2024-01-01T00:00:00" |}.

Definition sample_entry (job_id doc_id text : string) : value :=
  job_entry job_id (sample_document doc_id text) "2024-01-01T00:00:05".

(** The claim of a last-in-first-out queue: after jobs were pushed on an
    empty queue, the next pop returns the one pushed last. *)
Definition lifo_queue : Prop :=
  forall (w : World) (entries : list value) (newest : list (string * value)),
    call_ok 0 w = true ->
    live (broker w) NLP_QUEUE = None ->
    last entries = Some (VDict newest) ->
    fst (get_processing_job (enqueue_all entries w)) = Ret (VDict newest).

(** A computation keeps [P] when the server satisfies it afterwards,
    whether the computation returns or raises. *)
Definition keeps (P : Broker -> Prop) {A} (m : M A) : Prop :=
  forall w, P (broker w) -> P (broker (snd (m w))).

(** A non-empty error message is recorded. *)
Definition error_set (d : list (string * value)) : Prop :=
  exists msg, dict_get "error" d = Some (VStr msg) /\ msg ≠ "".

(** Progress is 100 exactly for a completed job, and an error message is
    recorded exactly for a failed one. *)
Definition record_invariant (v : value) : Prop :=
  exists d s p,
    v = VDict d /\
    dict_get "status" d = Some (VStr s) /\
    dict_get "progress" d = Some (VNum p) /\
    (p = 100%Z <-> s = JobStatus_value COMPLETED) /\
    (error_set d <-> s = JobStatus_value FAILED).

(** Whatever is stored under the key of a job is a record with that
    property. *)
Definition JobStore_invariant (b : Broker) : Prop :=
  forall job_id e,
    keys b !! job_key job_id = Some e ->
    exists v exp, e = EString (Encoded v) exp /\ record_invariant v.

(** A part of the keyspace that a command leaves alone stays as it was. *)
Definition same_records (b b' : Broker) : Prop :=
  forall job_id, keys b' !! job_key job_id = keys b !! job_key job_id.

(** An analyzer for the examples: it counts one word and never fails. *)
Definition sample_analyzer (document : Document.t) : outcome value :=
  Ret (VDict [("word_count", VNum 1); ("sentence_count", VNum 1)]).

Definition idle_consumer : RedisConsumer :=
  {| running := true; processed_count := 0 |}.

Definition not_found : exn := HTTPException 404 "Job not found".

(** One job is waiting. *)
Definition one_waiting : World :=
  enqueue (sample_entry "job-1" "d1" "Apple Inc.") empty_world.

(** A world in which job "job-1" was queued and processed. *)
Definition processed_world : World :=
  snd (_process_next_job sample_analyzer "en_core_web_sm" idle_consumer
         one_waiting).

(** The world of [processed_world] with the connection down. *)
Definition unreachable_world : World :=
  {| broker := broker processed_world; faults := [true];
     clock := clock processed_world; errlog := errlog processed_world |}.

(** Two jobs are waiting and nothing was processed yet. *)
Definition two_waiting : World :=
  enqueue_all [sample_entry "job-1" "d1" "first";
               sample_entry "job-2" "d2" "second"] empty_world.

(** Of two jobs, the older one is processed and the other is waiting. *)
Definition one_done_one_waiting : World :=
  snd (_process_next_job sample_analyzer "en_core_web_sm" idle_consumer
         two_waiting).

(** The message [publish_job_result] pushes. *)
Definition result_message (job_id : string) (result : list (string * value))
  : wire :=
  json_dumps
    (VDict [("job_id", VStr job_id);
            ("result", VDict result);
            ("timestamp", opt_value id (dict_get "processed_at" result))]).

(** The world after a reading of the clock, and after an error is logged. *)
Definition tick (w : World) : World := snd (utcnow w).
Definition logged (msg : string) (w : World) : World := snd (log_error msg w).

(** The error message of [fail_job]. *)
Definition failure_message (e : exn) : string :=
  "Failed to process document: " +:+ str_exn e.

(** The job carries a document the worker accepts as present. *)
Definition has_document (job : ProcessingJob.t) : bool :=
  match metadata_document job with
  | Ret document_data => truthy document_data
  | Raise _ => false
  end.

(** The exception the extraction raises on a job without one. *)
Definition missing_document (job : ProcessingJob.t) : exn :=
  match ProcessingJob.metadata job with
  | Some _ => Exception "No document data in job"
  | None => Exception "'NoneType' object has no attribute 'get'"
  end.

(** The consumer after one more processed job. *)
Definition counted (self : RedisConsumer) : RedisConsumer :=
  {| running := running self; processed_count := S (processed_count self) |}.

(** A queue entry pushed by another producer: a job without a document. *)
Definition orphan_world : World :=
  {| broker :=
       {| keys :=
            {[ NLP_QUEUE :=
                 EList [Encoded (VDict [("id", VStr "job-9");
                                        ("document_id", VStr "d9");
                                        ("metadata", VDict [])])] ]};
          now := 0 |};
     faults := []; clock := 0; errlog := [] |}.

Definition orphan_job : ProcessingJob.t :=
  {| ProcessingJob.id := "job-9";
     ProcessingJob.document_id := "d9";
     ProcessingJob.status := PROCESSING;
     ProcessingJob.created_at := "0";
     ProcessingJob.started_at := Some "1";
     ProcessingJob.completed_at := None;
     ProcessingJob.error_message := None;
     ProcessingJob.progress := 0;
     ProcessingJob.metadata := Some [] |}.

Definition claimed_job : ProcessingJob.t :=
  {| ProcessingJob.id := "job-1";
     ProcessingJob.document_id := "d1";
     ProcessingJob.status := PROCESSING;
     ProcessingJob.created_at := "2024-01-01T00:00:05";
     ProcessingJob.started_at := Some "0";
     ProcessingJob.completed_at := None;
     ProcessingJob.error_message := None;
     ProcessingJob.progress := 0;
     ProcessingJob.metadata :=
       Some [("document", document_entry (sample_document "d1" "Apple Inc."))] |}.

Definition analysed_document : ProcessedDocument.t :=
  {| ProcessedDocument.document := sample_document "d1" "Apple Inc.";
     ProcessedDocument.analysis :=
       VDict [("word_count", VNum 1); ("sentence_count", VNum 1)];
     ProcessedDocument.processed_at := "1";
     ProcessedDocument.processing_version := "1.0.0";
     ProcessedDocument.model_used := "en_core_web_sm" |}.

(** The claim that the bare envelope is what reaches the results channel. *)
Definition bare_envelope_published : Prop :=
  forall (process_document : Document.t -> outcome value) (SPACY_MODEL : string)
         (self : RedisConsumer) (w w1 w2 : World) (job : ProcessingJob.t)
         (document : Document.t) (processed_doc : ProcessedDocument.t),
    claim_job w = (Ret (Some job), w1) ->
    analyse_job process_document SPACY_MODEL job w1 =
      (Ret (document, processed_doc), w2) ->
    call_ok 1 w2 = true ->
    list_key (broker w2) NLP_RESULTS_QUEUE ->
    exists processed_at,
      head (queue_items
              (broker (snd (_process_next_job process_document SPACY_MODEL self w)))
              NLP_RESULTS_QUEUE) =
        Some (json_dumps
                (VDict (completed_result (ProcessingJob.id job)
                          (Document.id document)
                          (ProcessedDocument.dict processed_doc) processed_at))).

(** One job is waiting and the connection drops right before the
    publication: the pop and the two status writes go through. *)
Definition drops_before_publication : World :=
  {| broker := broker one_waiting; faults := [false; false; false; true];
     clock := clock one_waiting; errlog := errlog one_waiting |}.

Section Reachability.

Variable process_document : Document.t -> outcome value.
Variable SPACY_MODEL : string.

(** What can happen to the world: a submission, an iteration of the worker,
    a status query, the clearing of the queue, or a move of the environment
    (time passes, the connection comes and goes, other clients of the server
    push to the queues), which may do anything but write job records. *)
Inductive pipeline_step : World -> World -> Prop :=
  | step_submit (job_id : string) (document : Document.t) (w : World) :
      pipeline_step w (snd (submit_job job_id document w))
  | step_work (self : RedisConsumer) (w : World) :
      pipeline_step w (snd (_process_next_job process_document SPACY_MODEL self w))
  | step_query (job_id : string) (w : World) :
      pipeline_step w (snd (get_job_status job_id w))
  | step_clear (w : World) :
      pipeline_step w (snd (clear_processing_queue w))
  | step_environment (w w' : World) :
      same_records (broker w) (broker w') ->
      pipeline_step w w'.

(** The worlds the pipeline reaches from a server without keys. *)
Inductive reachable : World -> Prop :=
  | reach_start (w : World) : keys (broker w) = ∅ -> reachable w
  | reach_step (w w' : World) :
      reachable w -> pipeline_step w w' -> reachable w'.

End Reachability.

(** Time passes on the server. *)
Definition elapse (seconds : N) (w : World) : World := snd (sleep seconds w).

(** The record [update_job_status] writes for a completed job. *)
Definition completed_record : value := VDict (status_record "completed" 100 None).

(** The job object the worker builds from the entry [job_entry job_id
    document created]. *)
Definition waiting_job (job_id : string) (document : Document.t)
    (created : string) : ProcessingJob.t :=
  {| ProcessingJob.id := job_id;
     ProcessingJob.document_id := Document.id document;
     ProcessingJob.status := PENDING;
     ProcessingJob.created_at := created;
     ProcessingJob.started_at := None;
     ProcessingJob.completed_at := None;
     ProcessingJob.error_message := None;
     ProcessingJob.progress := 0;
     ProcessingJob.metadata := Some [("document", document_entry document)] |}.

(** The entries of jobs created at the same time, in the order of the
    list. *)
Definition job_entries (created : string) (jobs : list (string * Document.t))
  : list value :=
  map (fun job => job_entry (fst job) (snd job) created) jobs.

(** The document of the job is one the worker can build and the analyzer
    succeeds on. *)
Definition analysable (process_document : Document.t -> outcome value)
    (job : string * Document.t) : Prop :=
  datetime_text (Document.created_at (snd job)) = true /\
  exists analysis, process_document (snd job) = Ret analysis.

(** That job object once the worker has claimed it at clock [c]. *)
Definition claimed (job_id : string) (document : Document.t)
    (created : string) (c : N) : ProcessingJob.t :=
  {| ProcessingJob.id := job_id;
     ProcessingJob.document_id := Document.id document;
     ProcessingJob.status := PROCESSING;
     ProcessingJob.created_at := created;
     ProcessingJob.started_at := Some (pretty c);
     ProcessingJob.completed_at := None;
     ProcessingJob.error_message := None;
     ProcessingJob.progress := 0;
     ProcessingJob.metadata := Some [("document", document_entry document)] |}.

(** The processed document the worker builds at clock [c]. *)
Definition processed (document : Document.t) (analysis : value)
    (SPACY_MODEL : string) (c : N) : ProcessedDocument.t :=
  {| ProcessedDocument.document := document;
     ProcessedDocument.analysis := analysis;
     ProcessedDocument.processed_at := pretty c;
     ProcessedDocument.processing_version := SERVICE_VERSION;
     ProcessedDocument.model_used := SPACY_MODEL |}.

(** A healthy connection and a results channel that accepts pushes. *)
Definition healthy (w : World) : Prop :=
  faults w = [] /\ list_key (broker w) NLP_RESULTS_QUEUE.

(** The server once the entry at the right end of the work queue is
    popped, [rest] being what stays. *)
Definition popped (b : Broker) (rest : list wire) : Broker :=
  set_keys b (match rest with
              | [] => delete NLP_QUEUE (keys b)
              | _ => <[NLP_QUEUE := EList rest]> (keys b)
              end).

(** The world once the worker has popped an entry and marked the job as
    processing. *)
Definition after_claim (job_id : string) (rest : list wire) (w : World) : World :=
  snd (update_job_status job_id "processing" 0 None
         (tick (set_broker (popped (broker w) rest) (consume w)))).

(** A work queue whose only entry is not JSON. *)
Definition garbled_queue : World :=
  {| broker := {| keys := {[ NLP_QUEUE :=
                                    EList [Malformed "not json"
                                             "Expecting value: line 1 column 1 (char 0)"] ]};
                  now := 0 |};
     faults := []; clock := 0; errlog := [] |}.

(** An analyzer that rejects every document. *)
Definition failing_analyzer (document : Document.t) : outcome value :=
  Raise (Exception "model not loaded").

(** What the batch paths keep of the analyzer's outcome: the analysis, or
    the empty analysis when the analyzer raised. *)
Definition analysis_or_empty (o : outcome value) : value :=
  match o with
  | Ret analysis => analysis
  | Raise _ => NLPAnalysis_default
  end.

(** The result the batch endpoint owes for a document, given the analyzer
    and the configured model. *)
Definition batch_result_of (nlp_processor : Document.t -> outcome value)
    (SPACY_MODEL : string) (document : Document.t) (r : ProcessedDocument.t)
  : Prop :=
  ProcessedDocument.document r = document /\
  ProcessedDocument.analysis r = analysis_or_empty (nlp_processor document) /\
  ProcessedDocument.processing_version r = SERVICE_VERSION /\
  ProcessedDocument.model_used r = SPACY_MODEL.

(** One element is at least as good as the next: the order of a list
    sorted by decreasing score. *)
Definition score_not_below {A : Type} (score : A -> float) (a b : A) : Prop :=
  QArith_base.Qle (score b) (score a).

(** * Properties *)

(** ** Keys *)

Lemma job_key_not_queue (job_id : string) : job_key job_id ≠ NLP_QUEUE.
Proof. unfold job_key, NLP_QUEUE. simpl. discriminate. Qed.

Lemma job_key_not_results (job_id : string) : job_key job_id ≠ NLP_RESULTS_QUEUE.
Proof. unfold job_key, NLP_RESULTS_QUEUE. simpl. discriminate. Qed.

Lemma job_key_inj (a b : string) : job_key a = job_key b -> a = b.
Proof. unfold job_key. simpl. intros H. by simplify_eq. Qed.

Lemma results_not_queue : NLP_RESULTS_QUEUE ≠ NLP_QUEUE.
Proof. discriminate. Qed.

(** ** Running the service calls *)

Lemma seconds_later (t d : N) : (0 < d)%N -> (t + d <=? t)%N = false.
Proof. intros H. apply N.leb_gt. lia. Qed.

Lemma live_set_keys_ne (b : Broker) (ks : gmap string entry) (k : string) :
  ks !! k = keys b !! k -> live (set_keys b ks) k = live b k.
Proof. unfold live, set_keys. simpl. by intros ->. Qed.

(** A status record holds no [datetime] object: it is written as it is. *)
Lemma jsonify_status_record (status : string) (p : Z) (e : option string) :
  jsonify (VDict (status_record status p e)) = VDict (status_record status p e).
Proof.
  unfold status_record, error_given.
  destruct e as [msg|]; [|done].
  by destruct (negb (String.eqb msg "")).
Qed.

Lemma update_job_status_ok (job_id status : string) (p : Z) (e : option string)
    (w : World) :
  hd false (faults w) = false ->
  update_job_status job_id status p e w =
    (Ret tt,
     set_broker
       (set_keys (broker w)
          (<[job_key job_id :=
               EString (Encoded (VDict (status_record status p e)))
                 (now (broker w) + 3600)%N]> (keys (broker w))))
       (consume w)).
Proof.
  intros H. unfold update_job_status, try_except, redis_call, json_dumps.
  by rewrite H, jsonify_status_record.
Qed.

Lemma update_job_status_fault (job_id status : string) (p : Z) (e : option string)
    (w : World) :
  hd false (faults w) = true ->
  update_job_status job_id status p e w =
    log_error ("Failed to update job status: " +:+ str_exn ConnectionError)
      (consume w).
Proof.
  intros H. unfold update_job_status, try_except, redis_call.
  by rewrite H.
Qed.

(** ** Pushing and popping *)

Lemma enqueue_queue (entry : value) (w : World) :
  list_key (broker w) NLP_QUEUE ->
  queue_items (broker (enqueue entry w)) NLP_QUEUE =
    Encoded entry :: queue_items (broker w) NLP_QUEUE.
Proof.
  unfold list_key, queue_items, enqueue, redis_lpush.
  destruct (live (broker w) NLP_QUEUE) as [[p ex|items]|]; [done| |]; intros _;
    unfold live; simpl; by rewrite lookup_insert_eq.
Qed.

Lemma enqueue_live_ne (entry : value) (w : World) (k : string) :
  k ≠ NLP_QUEUE -> live (broker (enqueue entry w)) k = live (broker w) k.
Proof.
  intros Hk. unfold enqueue, redis_lpush.
  destruct (live (broker w) NLP_QUEUE) as [[p ex|items]|]; simpl; [done| |];
    apply live_set_keys_ne; apply lookup_insert_ne; by intros <-.
Qed.

Lemma list_key_of_items (b : Broker) (k : string) (m : wire) (items : list wire) :
  queue_items b k = m :: items -> list_key b k.
Proof.
  unfold queue_items, list_key.
  by destruct (live b k) as [[p ex|l]|].
Qed.

Lemma enqueue_all_queue (entries : list value) (w : World) :
  list_key (broker w) NLP_QUEUE ->
  queue_items (broker (enqueue_all entries w)) NLP_QUEUE =
    (rev (map Encoded entries) ++ queue_items (broker w) NLP_QUEUE)%list.
Proof.
  revert w. induction entries as [|entry rest IH]; intros w Hl; [done|].
  pose proof (enqueue_queue entry w Hl) as Hq.
  simpl. rewrite IH by (by apply list_key_of_items in Hq).
  by rewrite Hq, <- app_assoc.
Qed.

Lemma enqueue_all_frame (entries : list value) (w : World) :
  faults (enqueue_all entries w) = faults w /\
  clock (enqueue_all entries w) = clock w /\
  (forall k, k ≠ NLP_QUEUE ->
     live (broker (enqueue_all entries w)) k = live (broker w) k).
Proof.
  revert w. induction entries as [|entry rest IH]; intros w; [done|].
  destruct (IH (enqueue entry w)) as (Hf & Hc & Hlive).
  simpl. split; [done|]. split; [done|].
  intros k Hk. rewrite Hlive by done. by apply enqueue_live_ne.
Qed.

Lemma queue_items_live (b : Broker) (k : string) (rest : list wire) (m : wire) :
  queue_items b k = (rest ++ [m])%list ->
  live b k = Some (EList (rest ++ [m])).
Proof.
  unfold queue_items.
  destruct (live b k) as [[p ex|items]|]; intros H; try by destruct rest.
  by rewrite H.
Qed.

Lemma popped_queue (b : Broker) (rest : list wire) :
  queue_items (popped b rest) NLP_QUEUE = rest.
Proof.
  unfold queue_items, popped, live. destruct rest as [|m rest]; simpl.
  - by rewrite lookup_delete_eq.
  - by rewrite lookup_insert_eq.
Qed.

Lemma popped_live_ne (b : Broker) (rest : list wire) (k : string) :
  k ≠ NLP_QUEUE -> live (popped b rest) k = live b k.
Proof.
  intros Hk. unfold popped. apply live_set_keys_ne.
  destruct rest; [by apply lookup_delete_ne | by apply lookup_insert_ne].
Qed.

Lemma brpop_tail (b : Broker) (rest : list wire) (m : wire) (timeout : N) :
  queue_items b NLP_QUEUE = (rest ++ [m])%list ->
  redis_brpop NLP_QUEUE timeout b = (Ret (Some (NLP_QUEUE, m)), popped b rest).
Proof.
  intros Hq. unfold redis_brpop. rewrite (queue_items_live _ _ _ _ Hq).
  by rewrite last_snoc, removelast_last.
Qed.

(** The pop hands over the object at the right end of the list. *)
Lemma get_processing_job_tail (w : World) (rest : list wire)
    (fields : list (string * value)) :
  hd false (faults w) = false ->
  queue_items (broker w) NLP_QUEUE = (rest ++ [Encoded (VDict fields)])%list ->
  get_processing_job w =
    (Ret (VDict fields), set_broker (popped (broker w) rest) (consume w)).
Proof.
  intros Hf Hq.
  unfold get_processing_job, try_except, bind, redis_call.
  by rewrite Hf, (brpop_tail _ _ _ _ Hq).
Qed.

Lemma hd_nth0 (fs : list bool) : hd false fs = nth 0 fs false.
Proof. by destruct fs. Qed.

Lemma hd_tl_nth1 (fs : list bool) : hd false (tl fs) = nth 1 fs false.
Proof. by destruct fs as [|f [|g fs]]. Qed.

(** ** C1: the order in which the queue serves jobs *)

(** C1, as stated, fails: after "job-1" and then "job-2" are pushed on an
    empty queue, the next pop returns "job-1", not the job pushed last. *)
Lemma lifo_queue_refuted : ~ lifo_queue.
Proof.
  intros H.
  specialize (H empty_world
                [sample_entry "job-1" "d1" "Apple Inc. was founded in 1976.";
                 sample_entry "job-2" "d2" "Second document."]
                _ eq_refl eq_refl eq_refl).
  vm_compute in H. discriminate.
Qed.

(** C1, amended: a job is pushed at the left end of the list (LPUSH, the
    command [submit_job] issues) and the worker pops at the right end
    (BRPOP), so the queue is first-in first-out.  After any non-empty
    sequence of jobs is pushed on an empty queue, the list holds them with
    the most recent one at its left end, the next pop that reaches the server
    returns the job pushed first, and the others stay in their order. *)
Theorem queue_serves_oldest_entry
    (w : World) (first : list (string * value)) (rest : list value) :
  call_ok 0 w = true ->
  live (broker w) NLP_QUEUE = None ->
  queue_items (broker (enqueue_all (VDict first :: rest) w)) NLP_QUEUE =
    rev (map Encoded (VDict first :: rest)) /\
  fst (get_processing_job (enqueue_all (VDict first :: rest) w)) =
    Ret (VDict first) /\
  queue_items
    (broker (snd (get_processing_job (enqueue_all (VDict first :: rest) w))))
    NLP_QUEUE = rev (map Encoded rest).
Proof.
  unfold call_ok. rewrite <- hd_nth0. intros Hf Hq. apply negb_true_iff in Hf.
  assert (Hl : list_key (broker w) NLP_QUEUE) by (unfold list_key; by rewrite Hq).
  pose proof (enqueue_all_queue (VDict first :: rest) w Hl) as Hitems.
  assert (Hempty : queue_items (broker w) NLP_QUEUE = [])
    by (unfold queue_items; by rewrite Hq).
  rewrite Hempty, app_nil_r in Hitems.
  split; [done|].
  destruct (enqueue_all_frame (VDict first :: rest) w) as (Hf' & _).
  change (rev (map Encoded (VDict first :: rest)))
    with (rev (map Encoded rest) ++ [Encoded (VDict first)])%list in Hitems.
  rewrite (get_processing_job_tail _ _ _ ltac:(by rewrite Hf') Hitems).
  split; [done|]. apply popped_queue.
Qed.

Lemma queue_serves_oldest_entry_witness :
  fst (get_processing_job two_waiting) = Ret (sample_entry "job-1" "d1" "first") /\
  queue_items (broker (snd (get_processing_job two_waiting))) NLP_QUEUE =
    [Encoded (sample_entry "job-2" "d2" "second")].
Proof.
  destruct (queue_serves_oldest_entry empty_world
              [("id", VStr "job-1");
               ("document_id", VStr "d1");
               ("status", VStr "pending");
               ("created_at", VStr "2024-01-01T00:00:05");
               ("progress", VNum 0);
               ("metadata",
                VDict [("document", document_entry (sample_document "d1" "first"))])]
              [sample_entry "job-2" "d2" "second"])
    as (_ & Hpop & Hrest); [reflexivity | reflexivity |].
  split; [exact Hpop | exact Hrest].
Defined.

(** ** Properties of the server that handlers keep *)

Section Preservation.

Variable P : Broker -> Prop.

Lemma keeps_ret {A} (a : A) : keeps P (ret a).
Proof. by intros w H. Qed.

Lemma keeps_raise {A} (e : exn) : keeps P (@raise A e).
Proof. by intros w H. Qed.

Lemma keeps_lift {A} (o : outcome A) : keeps P (lift o).
Proof. by intros w H. Qed.

Lemma keeps_utcnow : keeps P utcnow.
Proof. by intros w H. Qed.

Lemma keeps_log_error (msg : string) : keeps P (log_error msg).
Proof. by intros w H. Qed.

Lemma keeps_bind {A B} (m : M A) (k : A -> M B) :
  keeps P m -> (forall a, keeps P (k a)) -> keeps P (bind m k).
Proof.
  intros Hm Hk w H. unfold bind. specialize (Hm w H).
  destruct (m w) as [[a|e] w']; simpl in *; [by apply Hk | done].
Qed.

Lemma keeps_try_except {A} (m : M A) (h : exn -> M A) :
  keeps P m -> (forall e, keeps P (h e)) -> keeps P (try_except m h).
Proof.
  intros Hm Hh w H. unfold try_except. specialize (Hm w H).
  destruct (m w) as [[a|e] w']; simpl in *; [done | by apply Hh].
Qed.

Lemma keeps_redis_call {A} (cmd : Broker -> outcome A * Broker) :
  (forall b, P b -> P (snd (cmd b))) -> keeps P (redis_call cmd).
Proof.
  intros Hcmd w H. unfold redis_call.
  destruct (hd false (faults w)); [done|].
  specialize (Hcmd (broker w) H). by destruct (cmd (broker w)).
Qed.

Lemma keeps_default_datetime (field : string) (d : list (string * value)) :
  keeps P (default_datetime field d).
Proof. unfold default_datetime. destruct (dict_get field d); by intros w H. Qed.

Lemma keeps_Document_init (data : value) : keeps P (Document.init data).
Proof.
  destruct data; try apply keeps_raise.
  apply keeps_bind; [apply keeps_default_datetime | intros; apply keeps_lift].
Qed.

Lemma keeps_ProcessingJob_init (data : value) : keeps P (ProcessingJob.init data).
Proof.
  destruct data; try apply keeps_raise.
  apply keeps_bind; [apply keeps_default_datetime | intros; apply keeps_lift].
Qed.

End Preservation.

(** Decomposes a handler along its binds and handlers. *)
Ltac keeps_step :=
  lazymatch goal with
  | |- keeps _ (ret _) => apply keeps_ret
  | |- keeps _ (raise _) => apply keeps_raise
  | |- keeps _ (lift _) => apply keeps_lift
  | |- keeps _ utcnow => apply keeps_utcnow
  | |- keeps _ (log_error _) => apply keeps_log_error
  | |- keeps _ (default_datetime _ _) => apply keeps_default_datetime
  | |- keeps _ (Document.init _) => apply keeps_Document_init
  | |- keeps _ (ProcessingJob.init _) => apply keeps_ProcessingJob_init
  | |- keeps _ (bind _ _) => apply keeps_bind; [|intros ?]
  | |- keeps _ (try_except _ _) => apply keeps_try_except; [|intros ?]
  end.

(** ** The invariant of the JobStore *)

Lemma JobStore_invariant_same (b b' : Broker) :
  same_records b b' -> JobStore_invariant b -> JobStore_invariant b'.
Proof. intros Hs Hb job_id e He. rewrite Hs in He. eauto. Qed.

Lemma lpush_same_records (k : string) (m : wire) (b : Broker) :
  (forall job_id, job_key job_id ≠ k) ->
  same_records b (snd (redis_lpush k m b)).
Proof.
  intros Hk job_id. unfold redis_lpush.
  destruct (live b k) as [[p ex|items]|]; simpl; try done;
    by rewrite lookup_insert_ne.
Qed.

Lemma brpop_same_records (k : string) (timeout : N) (b : Broker) :
  (forall job_id, job_key job_id ≠ k) ->
  same_records b (snd (redis_brpop k timeout b)).
Proof.
  intros Hk job_id. unfold redis_brpop, blocked_wait.
  destruct (live b k) as [[p ex|items]|]; simpl; try done;
    [|by destruct (socket_timeout <? timeout)%N].
  destruct (last items); simpl; [|by destruct (socket_timeout <? timeout)%N].
  destruct (removelast items); simpl;
    [by rewrite lookup_delete_ne | by rewrite lookup_insert_ne].
Qed.

Lemma delete_same_records (k : string) (b : Broker) :
  (forall job_id, job_key job_id ≠ k) ->
  same_records b (snd (redis_delete k b)).
Proof. intros Hk job_id. simpl. by rewrite lookup_delete_ne. Qed.

Lemma get_same_broker (k : string) (b : Broker) : snd (redis_get k b) = b.
Proof. unfold redis_get. by destruct (live b k) as [[p ex|items]|]. Qed.

Lemma llen_same_broker (k : string) (b : Broker) : snd (redis_llen k b) = b.
Proof. unfold redis_llen. by destruct (live b k) as [[p ex|items]|]. Qed.

Lemma setex_invariant (job_id : string) (v : value) (b : Broker) :
  record_invariant v ->
  JobStore_invariant b ->
  JobStore_invariant (snd (redis_setex (job_key job_id) 3600 (Encoded v) b)).
Proof.
  intros Hv Hb other e. simpl.
  destruct (decide (job_key job_id = job_key other)) as [Heq|Hne].
  - rewrite Heq, lookup_insert_eq. intros [= <-]. eauto.
  - rewrite lookup_insert_ne by done. apply Hb.
Qed.

(** The four records the pipeline writes. *)
Lemma status_record_invariant (st : JobStatus) (p : Z) (e : option string) :
  (st = COMPLETED /\ p = 100%Z /\ e = None) \/
  (st = FAILED /\ p = 0%Z /\ error_given e = true) \/
  ((st = PENDING \/ st = PROCESSING) /\ p = 0%Z /\ e = None) ->
  record_invariant (VDict (status_record (JobStatus_value st) p e)).
Proof.
  intros [(-> & -> & ->)|[(-> & -> & He)|(Hst & -> & ->)]].
  - eexists _, _, _. split; [reflexivity|]. simpl. repeat split; try done.
    + intros (msg & Hm & _). discriminate.
  - unfold status_record. rewrite He. destruct e as [msg|]; [|done].
    eexists _, _, _. split; [reflexivity|]. simpl. repeat split; try done.
    intros _. exists msg. split; [done|].
    intros ->. discriminate.
  - destruct Hst as [-> | ->];
      (eexists _, _, _; split; [reflexivity|]; simpl; repeat split; try done;
       intros (msg & Hm & _); discriminate).
Qed.

Lemma keeps_invariant_same {A} (cmd : Broker -> outcome A * Broker) :
  (forall b, same_records b (snd (cmd b))) ->
  keeps JobStore_invariant (redis_call cmd).
Proof.
  intros H. apply keeps_redis_call. intros b Hb.
  by apply (JobStore_invariant_same b).
Qed.

Lemma keeps_update_job_status (job_id : string) (st : JobStatus) (p : Z)
    (e : option string) :
  record_invariant (VDict (status_record (JobStatus_value st) p e)) ->
  keeps JobStore_invariant (update_job_status job_id (JobStatus_value st) p e).
Proof.
  intros Hrec. unfold update_job_status, json_dumps.
  rewrite jsonify_status_record. repeat keeps_step.
  apply keeps_redis_call. intros b Hb. by apply setex_invariant.
Qed.

Lemma keeps_publish_job_result (job_id : string) (result : list (string * value)) :
  keeps JobStore_invariant (publish_job_result job_id result).
Proof.
  unfold publish_job_result. repeat keeps_step.
  apply keeps_invariant_same. intros b.
  apply lpush_same_records, job_key_not_results.
Qed.

Lemma keeps_get_processing_job : keeps JobStore_invariant get_processing_job.
Proof.
  unfold get_processing_job. repeat keeps_step.
  - apply keeps_invariant_same. intros b.
    apply brpop_same_records, job_key_not_queue.
  - destruct a as [[queue_name message]|]; repeat keeps_step.
    destruct a; repeat keeps_step.
Qed.

Lemma keeps_service_get_job_status (job_id : string) :
  keeps JobStore_invariant (RedisService.get_job_status job_id).
Proof.
  unfold RedisService.get_job_status. repeat keeps_step.
  - apply keeps_redis_call. intros b Hb. by rewrite get_same_broker.
  - destruct a as [m|]; [destruct (nonempty_text m)|]; repeat keeps_step.
Qed.

Lemma keeps_clear_queue : keeps JobStore_invariant (clear_queue NLP_QUEUE).
Proof.
  unfold clear_queue. repeat keeps_step.
  apply keeps_invariant_same. intros b.
  apply delete_same_records, job_key_not_queue.
Qed.

Lemma keeps_submit_job (job_id : string) (document : Document.t) :
  keeps JobStore_invariant (submit_job job_id document).
Proof.
  unfold submit_job. repeat keeps_step.
  - by apply keeps_invariant_same.
  - apply keeps_update_job_status, status_record_invariant. tauto.
Qed.

Lemma keeps_get_job_status (job_id : string) :
  keeps JobStore_invariant (get_job_status job_id).
Proof.
  unfold get_job_status. repeat keeps_step.
  - apply keeps_service_get_job_status.
  - destruct (negb (truthy a)); [|destruct a]; repeat keeps_step.
  - destruct e; repeat keeps_step.
Qed.

Lemma keeps_clear_processing_queue :
  keeps JobStore_invariant clear_processing_queue.
Proof.
  unfold clear_processing_queue. repeat keeps_step.
  - apply keeps_clear_queue.
  - destruct a; repeat keeps_step.
Qed.

Section WorkerInvariant.

Variable process_document : Document.t -> outcome value.
Variable SPACY_MODEL : string.

Lemma keeps_claim_job : keeps JobStore_invariant claim_job.
Proof.
  unfold claim_job. repeat keeps_step.
  - apply keeps_get_processing_job.
  - destruct (negb (truthy a)); repeat keeps_step.
    + unfold ProcessingJob.start_processing. repeat keeps_step.
    + apply keeps_update_job_status, status_record_invariant. tauto.
Qed.

Lemma keeps_analyse_job (job : ProcessingJob.t) :
  keeps JobStore_invariant (analyse_job process_document SPACY_MODEL job).
Proof.
  unfold analyse_job. repeat keeps_step.
  destruct (negb (truthy a)); repeat keeps_step.
Qed.

Lemma keeps_complete_job (self : RedisConsumer) (job : ProcessingJob.t)
    (document : Document.t) (processed_doc : ProcessedDocument.t) :
  keeps JobStore_invariant (complete_job self job document processed_doc).
Proof.
  unfold complete_job, ProcessingJob.complete_processing. repeat keeps_step.
  - apply keeps_update_job_status, status_record_invariant. tauto.
  - apply keeps_publish_job_result.
  - destruct a2; repeat keeps_step.
Qed.

Lemma keeps_fail_job (self : RedisConsumer) (job : ProcessingJob.t) (e : exn) :
  keeps JobStore_invariant (fail_job self job e).
Proof.
  unfold fail_job, ProcessingJob.fail_processing. repeat keeps_step.
  - apply keeps_update_job_status, status_record_invariant.
    right. left. done.
  - apply keeps_publish_job_result.
Qed.

Lemma keeps_process_next_job (self : RedisConsumer) :
  keeps JobStore_invariant (_process_next_job process_document SPACY_MODEL self).
Proof.
  unfold _process_next_job, process_job. repeat keeps_step.
  - apply keeps_claim_job.
  - destruct a as [job|]; repeat keeps_step.
    + apply keeps_analyse_job.
    + apply keeps_complete_job.
    + apply keeps_fail_job.
Qed.

(** ** C2: the invariant of stored records *)

(** C2: in every world the pipeline reaches, each job record of the JobStore
    has progress 100 if and only if its status is "completed", and carries
    an error message if and only if its status is "failed". *)
Theorem stored_records_invariant (w : World) :
  reachable process_document SPACY_MODEL w -> JobStore_invariant (broker w).
Proof.
  induction 1 as [w Hempty | w w' Hreach IH Hstep].
  - intros job_id e. rewrite Hempty, lookup_empty. discriminate.
  - destruct Hstep as [job_id document w | self w | job_id w | w | w w' Hsame].
    + by apply keeps_submit_job.
    + by apply keeps_process_next_job.
    + by apply keeps_get_job_status.
    + by apply keeps_clear_processing_queue.
    + by apply (JobStore_invariant_same (broker w)).
Qed.

End WorkerInvariant.

Lemma stored_records_invariant_witness :
  JobStore_invariant (broker processed_world) /\
  stored_record (broker processed_world) "job-1" =
    Some (VDict [("status", VStr "completed"); ("progress", VNum 100);
                 ("updated_at", VNone)]).
Proof.
  split; [|reflexivity].
  apply (stored_records_invariant sample_analyzer "en_core_web_sm").
  apply (reach_step _ _ one_waiting); [|apply step_work].
  apply (reach_step _ _ (snd (submit_job "job-0" (sample_document "d0" "lost")
                                empty_world)));
    [|apply step_environment].
  - apply (reach_step _ _ empty_world); [|apply step_submit].
    apply reach_start. reflexivity.
  - intros job_id. simpl. apply lookup_insert_ne.
    intros Heq. symmetry in Heq. by apply job_key_not_queue in Heq.
Defined.

(** ** C3: what a failed submission leaves behind *)

(** The push of [submit_job] raises, whether or not its call reaches the
    server, and the server is as it was. *)
Lemma submit_job_raises (w : World) (job_id : string) (document : Document.t) :
  (exists detail,
     fst (submit_job job_id document w) = Raise (HTTPException 500 detail)) /\
  broker (snd (submit_job job_id document w)) = broker w.
Proof.
  unfold submit_job, try_except, bind, utcnow, redis_call, redis_lpush_dict,
    log_error, raise.
  simpl. destruct (hd false (faults w)); simpl; eauto.
Qed.

(** C3: a submission whose push fails raises a 500 error and leaves the
    server as it was: the JobStore holds no record it did not hold before,
    and the work queue no entry.  The push fails in every submission: when
    the call does not reach the server, and when it does, because the client
    refuses the dictionary it is given to send.  So the status write that
    follows the push is never reached, and no submission leaves partial
    state. *)
Theorem failed_submission_leaves_nothing
    (w : World) (job_id : string) (document : Document.t) :
  (exists detail,
     fst (submit_job job_id document w) = Raise (HTTPException 500 detail)) /\
  broker (snd (submit_job job_id document w)) = broker w /\
  stored_record (broker (snd (submit_job job_id document w))) job_id =
    stored_record (broker w) job_id /\
  queue_items (broker (snd (submit_job job_id document w))) NLP_QUEUE =
    queue_items (broker w) NLP_QUEUE.
Proof.
  destruct (submit_job_raises w job_id document) as [Hraise Hsame].
  by rewrite Hsame.
Qed.

(** ** C7 and C9: the status query *)

(** The lookup of the wrapper never raises. *)
Lemma service_get_job_status_total (job_id : string) (w : World) :
  exists v, fst (RedisService.get_job_status job_id w) = Ret v.
Proof.
  unfold RedisService.get_job_status, try_except, bind, redis_call, redis_get.
  destruct (hd false (faults w)); simpl; [eauto|].
  destruct (live (broker w) (job_key job_id)) as [[[v|text] ex|items]|];
    simpl; eauto.
  destruct (negb (String.eqb text "")); simpl; eauto.
Qed.

(** The answer of the endpoint depends on the server and on whether the
    call reaches it, and on nothing else. *)
Lemma get_job_status_determined (job_id : string) (w1 w2 : World) :
  broker w1 = broker w2 ->
  hd false (faults w1) = hd false (faults w2) ->
  fst (get_job_status job_id w1) = fst (get_job_status job_id w2).
Proof.
  intros Hb Hf.
  unfold get_job_status, RedisService.get_job_status, try_except, bind,
    redis_call, redis_get.
  rewrite Hb, Hf.
  destruct (hd false (faults w2)); simpl; [done|].
  destruct (live (broker w2) (job_key job_id)) as [[[v|text] ex|items]|];
    simpl; try done.
  - destruct (negb (truthy v)); simpl; [done|]. by destruct v.
  - by destruct (negb (String.eqb text "")).
Qed.

Lemma get_job_status_broker (job_id : string) (w : World) :
  broker (snd (get_job_status job_id w)) = broker w.
Proof.
  unfold get_job_status, RedisService.get_job_status, try_except, bind,
    redis_call, redis_get.
  destruct (hd false (faults w)); simpl; [done|].
  destruct (live (broker w) (job_key job_id)) as [[[v|text] ex|items]|];
    simpl; try done.
  - destruct (negb (truthy v)); simpl; [done|]. by destruct v.
  - by destruct (negb (String.eqb text "")).
Qed.

Lemma get_job_status_absent (job_id : string) (w : World) :
  live (broker w) (job_key job_id) = None ->
  fst (get_job_status job_id w) = Raise not_found.
Proof.
  intros Hlive.
  unfold get_job_status, RedisService.get_job_status, try_except, bind,
    redis_call, redis_get.
  destruct (hd false (faults w)); simpl; [done|]. by rewrite Hlive.
Qed.

(** C7: the status query leaves the server as it was.  When the lookup
    reaches the server it answers with the stored record, the job id in
    front, if a record is stored and has not expired, and with 404 if the
    key was never written or its time to live has run out.  A second query
    of the same id right after the first, under the same connectivity,
    gets the same answer. *)
Theorem status_query_read_only (w : World) (job_id : string) :
  broker (snd (get_job_status job_id w)) = broker w /\
  (call_ok 0 w = true ->
   (forall fields,
      stored_record (broker w) job_id = Some (VDict fields) -> fields ≠ [] ->
      fst (get_job_status job_id w) =
        Ret (VDict (dict_update [("job_id", VStr job_id)] fields))) /\
   (forall status progress error,
      stored_record (broker w) job_id =
        Some (VDict (status_record status progress error)) ->
      fst (get_job_status job_id w) =
        Ret (VDict (("job_id", VStr job_id)
                      :: status_record status progress error))) /\
   (keys (broker w) !! job_key job_id = None ->
    fst (get_job_status job_id w) = Raise not_found) /\
   (forall payload expires_at,
      keys (broker w) !! job_key job_id = Some (EString payload expires_at) ->
      (expires_at <= now (broker w))%N ->
      fst (get_job_status job_id w) = Raise not_found)) /\
  (call_ok 0 (snd (get_job_status job_id w)) = call_ok 0 w ->
   fst (get_job_status job_id (snd (get_job_status job_id w))) =
     fst (get_job_status job_id w)).
Proof.
  split; [apply get_job_status_broker|]. split.
  - unfold call_ok. rewrite <- hd_nth0. intros Hf. apply negb_true_iff in Hf.
    assert (Hfound : forall fields,
      stored_record (broker w) job_id = Some (VDict fields) -> fields ≠ [] ->
      fst (get_job_status job_id w) =
        Ret (VDict (dict_update [("job_id", VStr job_id)] fields))).
    { intros fields Hrec Hne. unfold stored_record in Hrec.
      unfold get_job_status, RedisService.get_job_status, try_except, bind,
        redis_call, redis_get.
      rewrite Hf.
      destruct (live (broker w) (job_key job_id)) as [[[v|text] ex|items]|];
        try done.
      injection Hrec as ->. simpl. by destruct fields. }
    split; [exact Hfound|]. split; [|split].
    + intros status progress error Hrec.
      rewrite (Hfound _ Hrec).
      * unfold status_record. by destruct (error_given error).
      * unfold status_record. by destruct (error_given error).
    + intros Hnone. apply get_job_status_absent. unfold live. by rewrite Hnone.
    + intros payload expires_at Hkey Hexp. apply get_job_status_absent.
      unfold live. rewrite Hkey.
      by apply N.leb_le in Hexp as ->.
  - unfold call_ok. rewrite <- !hd_nth0. intros Hf.
    apply get_job_status_determined; [apply get_job_status_broker|].
    by apply (f_equal negb) in Hf; rewrite !negb_involutive in Hf.
Qed.

Lemma status_query_read_only_witness :
  fst (get_job_status "job-1" processed_world) =
    Ret (VDict [("job_id", VStr "job-1"); ("status", VStr "completed");
                ("progress", VNum 100); ("updated_at", VNone)]) /\
  fst (get_job_status "job-2" processed_world) = Raise not_found /\
  fst (get_job_status "job-1" (snd (get_job_status "job-1" processed_world))) =
    fst (get_job_status "job-1" processed_world).
Proof.
  destruct (status_query_read_only processed_world "job-1") as (_ & H1 & Hagain).
  destruct (status_query_read_only processed_world "job-2") as (_ & H2 & _).
  destruct (H1 eq_refl) as (_ & Hrecord & _).
  destruct (H2 eq_refl) as (_ & _ & Hnone & _).
  split; [|split].
  - apply (Hrecord "completed" 100%Z None). reflexivity.
  - apply Hnone. vm_compute. reflexivity.
  - apply Hagain. reflexivity.
Defined.

(** C9: when the lookup of the status query raises, the wrapper swallows
    the error and returns [None], and the endpoint answers 404 "Job not
    found", the very answer it gives for a job that expired or never
    existed.  The wrapper's lookup never raises, whatever the server holds,
    so no error of the lookup reaches the endpoint's 500 handler. *)
Theorem lookup_failure_reads_as_not_found (w : World) (job_id : string) :
  call_ok 0 w = false ->
  fst (RedisService.get_job_status job_id w) = Ret VNone /\
  fst (get_job_status job_id w) = Raise not_found /\
  broker (snd (get_job_status job_id w)) = broker w /\
  (forall w', live (broker w') (job_key job_id) = None ->
              fst (get_job_status job_id w') = fst (get_job_status job_id w)) /\
  (forall w', exists v, fst (RedisService.get_job_status job_id w') = Ret v).
Proof.
  unfold call_ok. rewrite <- hd_nth0. intros Hf. apply negb_false_iff in Hf.
  assert (H404 : fst (get_job_status job_id w) = Raise not_found).
  { unfold get_job_status, RedisService.get_job_status, try_except, bind, redis_call.
    by rewrite Hf. }
  split; [|split; [done|split; [apply get_job_status_broker|split]]].
  - unfold RedisService.get_job_status, try_except, bind, redis_call. by rewrite Hf.
  - intros w' Hnone. rewrite H404.
    unfold get_job_status, RedisService.get_job_status, try_except, bind,
      redis_call, redis_get.
    destruct (hd false (faults w')); simpl; [done|]. by rewrite Hnone.
  - intros w'. apply service_get_job_status_total.
Qed.

Lemma lookup_failure_reads_as_not_found_witness :
  stored_record (broker unreachable_world) "job-1" =
    Some (VDict (status_record "completed" 100 None)) /\
  fst (get_job_status "job-1" unreachable_world) = Raise not_found.
Proof.
  split; [vm_compute; reflexivity|].
  destruct (lookup_failure_reads_as_not_found unreachable_world "job-1")
    as (_ & H & _); [reflexivity | exact H].
Defined.

(** ** C8: clearing the queue *)

Lemma get_processing_job_empty (w : World) :
  live (broker w) NLP_QUEUE = None ->
  fst (get_processing_job w) = Ret VNone /\
  keys (broker (snd (get_processing_job w))) = keys (broker w).
Proof.
  intros Hlive.
  unfold get_processing_job, try_except, bind, redis_call, redis_brpop,
    blocked_wait.
  destruct (hd false (faults w)); simpl; [done|]. by rewrite Hlive.
Qed.

Lemma live_delete (b : Broker) (k : string) :
  live (set_keys b (delete k (keys b))) k = None.
Proof. unfold live. simpl. by rewrite lookup_delete_eq. Qed.

(** C8: after a successful clear-queue the processing queue is empty: its
    length reads 0 and a pop brings no job.  Every other key of the server,
    so every job record and the results channel, is as it was, and so is
    the server's clock. *)
Theorem clear_queue_frame (w : World) (response : value) :
  fst (clear_processing_queue w) = Ret response ->
  queue_items (broker (snd (clear_processing_queue w))) NLP_QUEUE = [] /\
  fst (get_queue_length NLP_QUEUE (snd (clear_processing_queue w))) = Ret 0 /\
  fst (get_processing_job (snd (clear_processing_queue w))) = Ret VNone /\
  (forall k, k ≠ NLP_QUEUE ->
     keys (broker (snd (clear_processing_queue w))) !! k = keys (broker w) !! k) /\
  (forall job_id,
     stored_record (broker (snd (clear_processing_queue w))) job_id =
       stored_record (broker w) job_id) /\
  queue_items (broker (snd (clear_processing_queue w))) NLP_RESULTS_QUEUE =
    queue_items (broker w) NLP_RESULTS_QUEUE /\
  now (broker (snd (clear_processing_queue w))) = now (broker w).
Proof.
  unfold clear_processing_queue, clear_queue, try_except, bind, redis_call.
  destruct (hd false (faults w)) eqn:Hf; simpl; [discriminate|]. intros _.
  assert (Hlive : live (set_keys (broker w) (delete NLP_QUEUE (keys (broker w))))
                    NLP_QUEUE = None) by apply live_delete.
  assert (Hother : forall k, k ≠ NLP_QUEUE ->
            live (set_keys (broker w) (delete NLP_QUEUE (keys (broker w)))) k =
            live (broker w) k).
  { intros k Hk. apply live_set_keys_ne. by apply lookup_delete_ne. }
  split; [by unfold queue_items; rewrite Hlive|].
  split.
  { unfold get_queue_length, try_except, redis_call, redis_llen. simpl.
    destruct (hd false (tl (faults w))); simpl; [done|]. by rewrite Hlive. }
  split; [by apply get_processing_job_empty|].
  split; [intros k Hk; by apply lookup_delete_ne|].
  split.
  { intros job_id. unfold stored_record.
    by rewrite Hother by apply job_key_not_queue. }
  split; [|done].
  unfold queue_items. by rewrite Hother by apply results_not_queue.
Qed.

Lemma clear_queue_frame_witness :
  length (queue_items (broker one_done_one_waiting) NLP_QUEUE) = 1 /\
  fst (get_processing_job (snd (clear_processing_queue one_done_one_waiting))) =
    Ret VNone /\
  stored_record (broker (snd (clear_processing_queue one_done_one_waiting)))
    "job-1" = Some (VDict (status_record "completed" 100 None)).
Proof.
  split; [vm_compute; reflexivity|].
  destruct (clear_queue_frame one_done_one_waiting
              (VDict [("message", VStr "Processing queue cleared successfully")]))
    as (_ & _ & Hpop & _ & Hrec & _); [vm_compute; reflexivity|].
  split; [exact Hpop|]. rewrite Hrec. vm_compute. reflexivity.
Defined.

(** ** The worker *)

Section WorkerProperties.

Variable process_document : Document.t -> outcome value.
Variable SPACY_MODEL : string.

Abbreviation process_next_job := (_process_next_job process_document SPACY_MODEL).
Abbreviation consumer_loop := (start process_document SPACY_MODEL).

(** No exception leaves an iteration of the worker. *)
Lemma process_next_job_returns (self : RedisConsumer) (w : World) :
  exists self', fst (process_next_job self w) = Ret self'.
Proof.
  unfold _process_next_job.
  set (body := bind (claim_job) _).
  unfold try_except. destruct (body w) as [[self'|e] w1]; simpl; eauto.
Qed.

(** So every iteration of the loop is followed by the next one. *)
Lemma consumer_loop_continues (n : nat) (self : RedisConsumer) (w : World) :
  exists self',
    fst (process_next_job self w) = Ret self' /\
    consumer_loop (S n) self w =
      consumer_loop n self' (snd (process_next_job self w)).
Proof.
  destruct (process_next_job_returns self w) as [self' Hret].
  exists self'. split; [done|].
  simpl. unfold bind at 1. unfold try_except at 1.
  destruct (process_next_job self w) as [[s|e] w1]; simpl in *; congruence.
Qed.

(** ** C5: the pop on an empty queue *)

(** C5: on an empty queue the wrapper's pop returns [None] and does not
    raise, and less than the 30 seconds of BRPOP have passed on the server.
    The iteration of the worker returns normally without touching the keys
    of the server or the processed count, and the loop goes on with its next
    iteration.  When the call reaches the server, the wait ends after the 5
    seconds of the socket timeout, which is the shorter of the two: the
    client raises, and the wrapper logs the error and returns [None], as it
    does when the call itself fails. *)
Theorem empty_queue_pop_is_idle (n : nat) (self : RedisConsumer) (w : World) :
  live (broker w) NLP_QUEUE = None ->
  fst (get_processing_job w) = Ret VNone /\
  fst (process_next_job self w) = Ret self /\
  keys (broker (snd (process_next_job self w))) = keys (broker w) /\
  consumer_loop (S n) self w = consumer_loop n self (snd (process_next_job self w)) /\
  (now (broker (snd (process_next_job self w))) < now (broker w) + 30)%N /\
  (call_ok 0 w = true ->
   now (broker (snd (process_next_job self w))) = (now (broker w) + 5)%N /\
   exists error,
     errlog (snd (process_next_job self w)) =
       ("Failed to get processing job: " +:+ error) :: errlog w).
Proof.
  intros Hlive.
  assert (Hstep : fst (process_next_job self w) = Ret self /\
                  keys (broker (snd (process_next_job self w))) = keys (broker w) /\
                  (now (broker (snd (process_next_job self w))) <
                     now (broker w) + 30)%N /\
                  (call_ok 0 w = true ->
                   now (broker (snd (process_next_job self w))) =
                     (now (broker w) + 5)%N /\
                   exists error,
                     errlog (snd (process_next_job self w)) =
                       ("Failed to get processing job: " +:+ error) :: errlog w)).
  { unfold call_ok. rewrite <- hd_nth0.
    unfold _process_next_job, claim_job, get_processing_job, try_except, bind,
      redis_call, redis_brpop, blocked_wait, socket_timeout.
    destruct (hd false (faults w)); simpl.
    - split; [done|]. split; [done|]. split; [lia|done].
    - rewrite Hlive. simpl. split; [done|]. split; [done|]. split; [lia|].
      intros _. split; [done|]. by eexists. }
  destruct Hstep as (Hret & Hkeys & Hwait & Hidle).
  split; [by apply get_processing_job_empty|].
  split; [done|]. split; [done|]. split; [|done].
  destruct (consumer_loop_continues n self w) as (self' & Hret' & Hloop).
  rewrite Hloop. congruence.
Qed.

(** ** Running a claimed job *)

Lemma live_insert_ne (b : Broker) (k k' : string) (e : entry) :
  k ≠ k' -> live (set_keys b (<[k := e]> (keys b))) k' = live b k'.
Proof. intros Hne. apply live_set_keys_ne. by apply lookup_insert_ne. Qed.

Lemma live_insert_string (b : Broker) (k : string) (p : wire) :
  live (set_keys b (<[k := EString p (now b + 3600)%N]> (keys b))) k =
    Some (EString p (now b + 3600)%N).
Proof.
  unfold live. simpl. rewrite lookup_insert_eq.
  by rewrite seconds_later by done.
Qed.

Lemma live_insert_list (b : Broker) (k : string) (m : wire) (items : list wire) :
  live (set_keys b (<[k := EList (m :: items)]> (keys b))) k =
    Some (EList (m :: items)).
Proof. unfold live. simpl. by rewrite lookup_insert_eq. Qed.

Lemma publish_job_result_ok (job_id : string) (result : list (string * value))
    (w : World) :
  hd false (faults w) = false ->
  list_key (broker w) NLP_RESULTS_QUEUE ->
  publish_job_result job_id result w =
    (Ret true,
     set_broker
       (set_keys (broker w)
          (<[NLP_RESULTS_QUEUE :=
               EList (result_message job_id result
                        :: queue_items (broker w) NLP_RESULTS_QUEUE)]>
             (keys (broker w))))
       (consume w)).
Proof.
  intros Hf Hl. unfold list_key, queue_items in *.
  unfold publish_job_result, try_except, bind, redis_call, redis_lpush.
  rewrite Hf.
  by destruct (live (broker w) NLP_RESULTS_QUEUE) as [[p ex|items]|].
Qed.

Lemma publish_job_result_fails (job_id : string) (result : list (string * value))
    (w : World) :
  hd false (faults w) = true \/ ~ list_key (broker w) NLP_RESULTS_QUEUE ->
  exists msg,
    publish_job_result job_id result w = (Ret false, snd (log_error msg (consume w))).
Proof.
  unfold list_key.
  unfold publish_job_result, try_except, bind, redis_call, redis_lpush.
  intros [Hf|Hl].
  - rewrite Hf. simpl. eauto.
  - destruct (hd false (faults w)); simpl; [eauto|].
    destruct (live (broker w) NLP_RESULTS_QUEUE) as [[p ex|items]|];
      simpl; [eauto| |]; by destruct Hl.
Qed.

Lemma update_job_status_returns (job_id status : string) (p : Z)
    (e : option string) (w : World) :
  fst (update_job_status job_id status p e w) = Ret tt.
Proof.
  destruct (hd false (faults w)) eqn:Hf.
  - by rewrite update_job_status_fault.
  - by rewrite update_job_status_ok.
Qed.

Lemma publish_job_result_returns (job_id : string)
    (result : list (string * value)) (w : World) :
  exists published, fst (publish_job_result job_id result w) = Ret published.
Proof.
  unfold publish_job_result, try_except, bind, redis_call, redis_lpush.
  destruct (hd false (faults w)); simpl; [eauto|].
  destruct (live (broker w) NLP_RESULTS_QUEUE) as [[p ex|items]|]; simpl; eauto.
Qed.

Lemma complete_job_returns (self : RedisConsumer) (job : ProcessingJob.t)
    (document : Document.t) (processed_doc : ProcessedDocument.t) (w : World) :
  exists self', fst (complete_job self job document processed_doc w) = Ret self'.
Proof.
  unfold complete_job, bind, ProcessingJob.complete_processing, utcnow. simpl.
  match goal with |- context [update_job_status ?i ?s ?p ?e ?w0] =>
    pose proof (update_job_status_returns i s p e w0) as Hu;
    destruct (update_job_status i s p e w0) as [[[]|e1] w3] end;
    simpl in *; [|discriminate].
  match goal with |- context [publish_job_result ?i ?r ?w0] =>
    destruct (publish_job_result_returns i r w0) as [published Hp];
    destruct (publish_job_result i r w0) as [[b|e2] w4] end;
    simpl in *; [|discriminate].
  destruct b; simpl; eauto.
Qed.

Lemma fail_job_returns (self : RedisConsumer) (job : ProcessingJob.t) (e : exn)
    (w : World) :
  fst (fail_job self job e w) = Ret self.
Proof.
  unfold fail_job, bind, ProcessingJob.fail_processing, utcnow, log_error. simpl.
  match goal with |- context [update_job_status ?i ?s ?p ?e ?w0] =>
    pose proof (update_job_status_returns i s p e w0) as Hu;
    destruct (update_job_status i s p e w0) as [[[]|e1] w3] end;
    simpl in *; [|discriminate].
  match goal with |- context [publish_job_result ?i ?r ?w0] =>
    destruct (publish_job_result_returns i r w0) as [published Hp];
    destruct (publish_job_result i r w0) as [[b|e2] w4] end;
    simpl in *; [done|discriminate].
Qed.

(** Once a job is claimed and analysed, the rest of the iteration is
    [complete_job]. *)
Lemma process_next_job_analysed (self : RedisConsumer) (w w1 w2 : World)
    (job : ProcessingJob.t) (document : Document.t)
    (processed_doc : ProcessedDocument.t) :
  claim_job w = (Ret (Some job), w1) ->
  analyse_job process_document SPACY_MODEL job w1 =
    (Ret (document, processed_doc), w2) ->
  process_next_job self w = complete_job self job document processed_doc w2.
Proof.
  intros Hclaim Hanalyse.
  unfold _process_next_job, process_job.
  unfold try_except at 1. unfold bind at 1. rewrite Hclaim.
  unfold try_except at 1. unfold bind at 1. rewrite Hanalyse. simpl.
  destruct (complete_job_returns self job document processed_doc w2) as [s Hs].
  by destruct (complete_job self job document processed_doc w2) as [[s'|e] w3].
Qed.

(** Once a job is claimed and its analysis raises, the rest of the
    iteration is [fail_job]. *)
Lemma process_next_job_failed (self : RedisConsumer) (w w1 w2 : World)
    (job : ProcessingJob.t) (e : exn) :
  claim_job w = (Ret (Some job), w1) ->
  analyse_job process_document SPACY_MODEL job w1 = (Raise e, w2) ->
  process_next_job self w = fail_job self job e w2.
Proof.
  intros Hclaim Hanalyse.
  unfold _process_next_job, process_job.
  unfold try_except at 1. unfold bind at 1. rewrite Hclaim.
  unfold try_except at 1. unfold bind at 1. rewrite Hanalyse.
  pose proof (fail_job_returns self job e w2) as Hs.
  by destruct (fail_job self job e w2) as [[s'|e'] w3].
Qed.

Lemma update_job_status_live_ne (job_id status : string) (p : Z)
    (e : option string) (w : World) (k : string) :
  k ≠ job_key job_id ->
  live (broker (snd (update_job_status job_id status p e w))) k = live (broker w) k.
Proof.
  intros Hk. destruct (hd false (faults w)) eqn:Hf.
  - by rewrite update_job_status_fault.
  - rewrite update_job_status_ok by done. simpl.
    apply live_insert_ne. by intros <-.
Qed.

Lemma update_job_status_stored (job_id status : string) (p : Z)
    (e : option string) (w : World) :
  hd false (faults w) = false ->
  stored_record (broker (snd (update_job_status job_id status p e w))) job_id =
    Some (VDict (status_record status p e)).
Proof.
  intros Hf. rewrite update_job_status_ok by done.
  unfold stored_record. simpl. by rewrite live_insert_string.
Qed.

Lemma update_job_status_unreached (job_id status : string) (p : Z)
    (e : option string) (w : World) :
  hd false (faults w) = true ->
  broker (snd (update_job_status job_id status p e w)) = broker w.
Proof. intros Hf. by rewrite update_job_status_fault. Qed.

Lemma update_job_status_schedule (job_id status : string) (p : Z)
    (e : option string) (w : World) :
  faults (snd (update_job_status job_id status p e w)) = tl (faults w) /\
  clock (snd (update_job_status job_id status p e w)) = clock w.
Proof.
  destruct (hd false (faults w)) eqn:Hf.
  - by rewrite update_job_status_fault.
  - by rewrite update_job_status_ok.
Qed.

Lemma publish_job_result_live_ne (job_id : string)
    (result : list (string * value)) (w : World) (k : string) :
  k ≠ NLP_RESULTS_QUEUE ->
  live (broker (snd (publish_job_result job_id result w))) k = live (broker w) k.
Proof.
  intros Hk.
  destruct (hd false (faults w)) eqn:Hf.
  - destruct (publish_job_result_fails job_id result w) as [msg ->]; [by left|done].
  - destruct (live (broker w) NLP_RESULTS_QUEUE) as [[p ex|items]|] eqn:Hq.
    + destruct (publish_job_result_fails job_id result w) as [msg ->]; [|done].
      right. unfold list_key. rewrite Hq. tauto.
    + rewrite publish_job_result_ok; [|done|by unfold list_key; rewrite Hq].
      simpl. apply live_insert_ne. by intros <-.
    + rewrite publish_job_result_ok; [|done|by unfold list_key; rewrite Hq].
      simpl. apply live_insert_ne. by intros <-.
Qed.

Lemma publish_job_result_pushed (job_id : string)
    (result : list (string * value)) (w : World) :
  hd false (faults w) = false ->
  list_key (broker w) NLP_RESULTS_QUEUE ->
  fst (publish_job_result job_id result w) = Ret true /\
  queue_items (broker (snd (publish_job_result job_id result w))) NLP_RESULTS_QUEUE =
    result_message job_id result :: queue_items (broker w) NLP_RESULTS_QUEUE.
Proof.
  intros Hf Hl. rewrite publish_job_result_ok by done. split; [done|].
  unfold queue_items at 1. simpl. by rewrite live_insert_list.
Qed.

Lemma publish_job_result_dropped (job_id : string)
    (result : list (string * value)) (w : World) :
  hd false (faults w) = true \/ ~ list_key (broker w) NLP_RESULTS_QUEUE ->
  fst (publish_job_result job_id result w) = Ret false /\
  broker (snd (publish_job_result job_id result w)) = broker w.
Proof.
  intros H. by destruct (publish_job_result_fails job_id result w H) as [msg ->].
Qed.

(** The world [fail_job] leaves: the error is logged, the job object takes
    its completion time, the record is written, the result is published. *)
Lemma fail_job_world (self : RedisConsumer) (job : ProcessingJob.t) (e : exn)
    (w : World) :
  snd (fail_job self job e w) =
    snd (publish_job_result (ProcessingJob.id job)
           (failed_result (ProcessingJob.id job) (ProcessingJob.document_id job)
              (failure_message e) (pretty (clock w + 1)%N))
           (tick
              (snd (update_job_status (ProcessingJob.id job) "failed" 0
                      (Some (failure_message e))
                      (tick
                         (logged ("Job " +:+ ProcessingJob.id job +:+ " failed: "
                                    +:+ failure_message e) w)))))).
Proof.
  unfold fail_job, bind, ProcessingJob.fail_processing, utcnow, log_error,
    tick, logged, failure_message.
  simpl.
  match goal with |- context [update_job_status ?i ?s ?p ?e ?w0] =>
    pose proof (update_job_status_returns i s p e w0) as Hu;
    pose proof (update_job_status_schedule i s p e w0) as [_ Hc];
    destruct (update_job_status i s p e w0) as [[[]|e1] w3] end;
    simpl in *; [|discriminate].
  rewrite Hc.
  match goal with |- context [publish_job_result ?i ?r ?w0] =>
    destruct (publish_job_result_returns i r w0) as [published Hp];
    destruct (publish_job_result i r w0) as [[b|e2] w4] end;
    simpl in *; [done|discriminate].
Qed.

(** What [fail_job] leaves on the server. *)
Lemma fail_job_effects (self : RedisConsumer) (job : ProcessingJob.t) (e : exn)
    (w : World) :
  (call_ok 0 w = true ->
   stored_record (broker (snd (fail_job self job e w))) (ProcessingJob.id job) =
     Some (VDict [("status", VStr "failed"); ("progress", VNum 0);
                  ("updated_at", VNone); ("error", VStr (failure_message e))])) /\
  (call_ok 1 w = true ->
   list_key (broker w) NLP_RESULTS_QUEUE ->
   queue_items (broker (snd (fail_job self job e w))) NLP_RESULTS_QUEUE =
     result_message (ProcessingJob.id job)
       (failed_result (ProcessingJob.id job) (ProcessingJob.document_id job)
          (failure_message e) (pretty (clock w + 1)%N))
       :: queue_items (broker w) NLP_RESULTS_QUEUE).
Proof.
  unfold call_ok. rewrite <- hd_nth0, <- hd_tl_nth1, fail_job_world.
  set (w1 := tick (logged _ w)).
  set (w2 := tick (snd (update_job_status _ _ _ _ w1))).
  assert (Hf1 : faults w1 = faults w) by done.
  split.
  - intros Hf. apply negb_true_iff in Hf.
    unfold stored_record.
    rewrite publish_job_result_live_ne by apply job_key_not_results.
    subst w2. unfold tick at 1. simpl.
    fold (stored_record
            (broker (snd (update_job_status (ProcessingJob.id job) "failed" 0
                            (Some (failure_message e)) w1)))
            (ProcessingJob.id job)).
    rewrite update_job_status_stored by (by rewrite Hf1). done.
  - intros Hf Hl. apply negb_true_iff in Hf.
    assert (Hf2 : hd false (faults w2) = false).
    { subst w2. unfold tick at 1. simpl.
      destruct (update_job_status_schedule (ProcessingJob.id job) "failed" 0
                  (Some (failure_message e)) w1) as [-> _].
      by rewrite Hf1. }
    assert (Hq : live (broker w2) NLP_RESULTS_QUEUE = live (broker w) NLP_RESULTS_QUEUE).
    { subst w2. unfold tick at 1. simpl.
      rewrite update_job_status_live_ne; [done|].
      intros Heq. symmetry in Heq. by apply job_key_not_results in Heq. }
    destruct (publish_job_result_pushed (ProcessingJob.id job)
                (failed_result (ProcessingJob.id job)
                   (ProcessingJob.document_id job) (failure_message e)
                   (pretty (clock w + 1)%N)) w2 Hf2) as [_ ->].
    + unfold list_key. by rewrite Hq.
    + unfold queue_items. by rewrite Hq.
Qed.

Lemma analyse_job_missing (job : ProcessingJob.t) (w : World) :
  has_document job = false ->
  analyse_job process_document SPACY_MODEL job w = (Raise (missing_document job), w).
Proof.
  unfold has_document, missing_document, analyse_job, metadata_document, bind, lift.
  destruct (ProcessingJob.metadata job) as [md|]; [|done].
  by intros ->.
Qed.

(** ** C4: a job without its document *)

(** C4: when the worker has claimed a job whose metadata carries no
    document (no metadata, no "document" entry, or an empty one), the
    iteration returns normally with the processed count unchanged and the
    loop goes on with its next iteration.  The error message is "Failed to
    process document: " followed by the text of the exception, which says
    that the job has no document data or, for a job without metadata, that
    [None] has no [get].  If the status write reaches the server the
    JobStore holds the job as "failed" with that message, and if the
    publication reaches the server the message at the left end of the
    results channel is [{job_id, result, timestamp}] whose [result] is
    [{job_id, document_id, status: "failed", error, processed_at}]. *)
Theorem missing_document_fails_job
    (n : nat) (self : RedisConsumer) (w w1 : World) (job : ProcessingJob.t) :
  claim_job w = (Ret (Some job), w1) ->
  has_document job = false ->
  let error :=
    match ProcessingJob.metadata job with
    | Some _ => "Failed to process document: No document data in job"
    | None =>
        "Failed to process document: 'NoneType' object has no attribute 'get'"
    end in
  fst (process_next_job self w) = Ret self /\
  consumer_loop (S n) self w = consumer_loop n self (snd (process_next_job self w)) /\
  error ≠ "" /\
  (call_ok 0 w1 = true ->
   stored_record (broker (snd (process_next_job self w))) (ProcessingJob.id job) =
     Some (VDict [("status", VStr "failed"); ("progress", VNum 0);
                  ("updated_at", VNone); ("error", VStr error)])) /\
  (call_ok 1 w1 = true ->
   list_key (broker w1) NLP_RESULTS_QUEUE ->
   queue_items (broker (snd (process_next_job self w))) NLP_RESULTS_QUEUE =
     json_dumps
       (VDict [("job_id", VStr (ProcessingJob.id job));
               ("result",
                VDict [("job_id", VStr (ProcessingJob.id job));
                       ("document_id", VStr (ProcessingJob.document_id job));
                       ("status", VStr "failed");
                       ("error", VStr error);
                       ("processed_at", VStr (pretty (clock w1 + 1)%N))]);
               ("timestamp", VStr (pretty (clock w1 + 1)%N))])
       :: queue_items (broker w1) NLP_RESULTS_QUEUE).
Proof.
  intros Hclaim Hmissing error.
  pose proof (process_next_job_failed self w w1 w1 job (missing_document job)
                Hclaim (analyse_job_missing job w1 Hmissing)) as Hrun.
  assert (Herror : failure_message (missing_document job) = error)
    by (unfold error, failure_message, missing_document;
        by destruct (ProcessingJob.metadata job)).
  assert (Hret : fst (process_next_job self w) = Ret self)
    by (rewrite Hrun; apply fail_job_returns).
  split; [done|]. split.
  { destruct (consumer_loop_continues n self w) as (self' & Hret' & ->).
    congruence. }
  split; [unfold error; by destruct (ProcessingJob.metadata job)|].
  rewrite Hrun.
  destruct (fail_job_effects self job (missing_document job) w1)
    as [Hstored Hpushed].
  rewrite Herror in Hstored, Hpushed. split; [done|].
  intros Hf Hl. by rewrite (Hpushed Hf Hl).
Qed.

(** ** C6 and C10: completion and publication *)

(** [complete_job] in terms of its two calls to the server. *)
Lemma complete_job_run (self : RedisConsumer) (job : ProcessingJob.t)
    (document : Document.t) (processed_doc : ProcessedDocument.t) (w : World) :
  let result :=
    completed_result (ProcessingJob.id job) (Document.id document)
      (ProcessedDocument.dict processed_doc) (pretty (clock w + 1)%N) in
  let w3 :=
    tick (snd (update_job_status (ProcessingJob.id job) "completed" 100 None
                 (tick w))) in
  exists published w4,
    publish_job_result (ProcessingJob.id job) result w3 = (Ret published, w4) /\
    complete_job self job document processed_doc w =
      if published
      then (Ret (counted self), w4)
      else (Ret self,
            logged ("Failed to publish result for job " +:+ ProcessingJob.id job)
              w4).
Proof.
  intros result w3. subst result w3.
  unfold complete_job, bind, ProcessingJob.complete_processing, utcnow, tick.
  simpl.
  match goal with |- context [update_job_status ?i ?s ?p ?e ?w0] =>
    pose proof (update_job_status_returns i s p e w0) as Hu;
    pose proof (update_job_status_schedule i s p e w0) as [_ Hc];
    destruct (update_job_status i s p e w0) as [[[]|e1] w3] end;
    simpl in *; [|discriminate].
  rewrite Hc.
  match goal with |- context [publish_job_result ?i ?r ?w0] =>
    destruct (publish_job_result_returns i r w0) as [published Hp];
    destruct (publish_job_result i r w0) as [[b|e2] w4] end;
    simpl in *; [|discriminate].
  exists b, w4. split; [done|]. by destruct b.
Qed.

(** What [complete_job] leaves on the server, call by call. *)
Lemma complete_job_effects (self : RedisConsumer) (job : ProcessingJob.t)
    (document : Document.t) (processed_doc : ProcessedDocument.t) (w : World) :
  let result :=
    completed_result (ProcessingJob.id job) (Document.id document)
      (ProcessedDocument.dict processed_doc) (pretty (clock w + 1)%N) in
  let done := complete_job self job document processed_doc w in
  (call_ok 0 w = true ->
   stored_record (broker (snd done)) (ProcessingJob.id job) =
     Some (VDict (status_record "completed" 100 None))) /\
  (call_ok 0 w = false ->
   live (broker (snd done)) (job_key (ProcessingJob.id job)) =
     live (broker w) (job_key (ProcessingJob.id job))) /\
  (call_ok 1 w = true -> list_key (broker w) NLP_RESULTS_QUEUE ->
   fst done = Ret (counted self) /\
   queue_items (broker (snd done)) NLP_RESULTS_QUEUE =
     result_message (ProcessingJob.id job) result
       :: queue_items (broker w) NLP_RESULTS_QUEUE) /\
  (call_ok 1 w = false \/ ~ list_key (broker w) NLP_RESULTS_QUEUE ->
   fst done = Ret self /\
   live (broker (snd done)) NLP_RESULTS_QUEUE = live (broker w) NLP_RESULTS_QUEUE).
Proof.
  intros result done. subst done.
  destruct (complete_job_run self job document processed_doc w)
    as (published & w4 & Hpub & Hrun).
  fold result in Hpub.
  set (w2 := snd (update_job_status (ProcessingJob.id job) "completed" 100 None
                    (tick w))) in *.
  assert (Hb : broker (snd (complete_job self job document processed_doc w)) =
               broker w4) by (rewrite Hrun; by destruct published).
  assert (Hw4 : w4 = snd (publish_job_result (ProcessingJob.id job) result (tick w2)))
    by (by rewrite Hpub).
  assert (Hf2 : hd false (faults (tick w2)) = nth 1 (faults w) false).
  { unfold tick at 1. simpl. subst w2.
    destruct (update_job_status_schedule (ProcessingJob.id job) "completed" 100
                None (tick w)) as [-> _].
    apply hd_tl_nth1. }
  assert (Hq : live (broker (tick w2)) NLP_RESULTS_QUEUE =
               live (broker w) NLP_RESULTS_QUEUE).
  { unfold tick at 1. simpl. subst w2.
    rewrite update_job_status_live_ne; [done|].
    intros Heq. symmetry in Heq. by apply job_key_not_results in Heq. }
  unfold call_ok. rewrite Hb, Hw4. clear Hb Hw4.
  split; [|split; [|split]].
  - rewrite <- hd_nth0. intros Hf. apply negb_true_iff in Hf.
    unfold stored_record.
    rewrite publish_job_result_live_ne by apply job_key_not_results.
    unfold tick at 1. simpl.
    fold (stored_record (broker w2) (ProcessingJob.id job)).
    subst w2. by rewrite update_job_status_stored.
  - rewrite <- hd_nth0. intros Hf. apply negb_false_iff in Hf.
    rewrite publish_job_result_live_ne by apply job_key_not_results.
    unfold tick at 1. simpl. subst w2.
    by rewrite update_job_status_unreached.
  - intros Hf Hl. apply negb_true_iff in Hf. rewrite <- Hf2 in Hf.
    assert (Hl2 : list_key (broker (tick w2)) NLP_RESULTS_QUEUE)
      by (unfold list_key; by rewrite Hq).
    destruct (publish_job_result_pushed (ProcessingJob.id job) result (tick w2)
                Hf Hl2) as [Htrue Hitems].
    rewrite Hpub in Htrue. simpl in Htrue. injection Htrue as ->.
    rewrite Hrun. split; [done|].
    rewrite Hitems. unfold queue_items. by rewrite Hq.
  - intros Hfail.
    assert (Hfail2 : hd false (faults (tick w2)) = true \/
                     ~ list_key (broker (tick w2)) NLP_RESULTS_QUEUE).
    { destruct Hfail as [Hf|Hl].
      - left. rewrite Hf2. by apply negb_false_iff.
      - right. unfold list_key in *. by rewrite Hq. }
    destruct (publish_job_result_dropped (ProcessingJob.id job) result (tick w2)
                Hfail2) as [Hfalse Hsame].
    rewrite Hpub in Hfalse. simpl in Hfalse. injection Hfalse as ->.
    rewrite Hrun. split; [done|]. by rewrite Hsame, Hq.
Qed.

(** [complete_job] touches the record of its job and the results channel,
    and no other key. *)
Lemma complete_job_frame (self : RedisConsumer) (job : ProcessingJob.t)
    (document : Document.t) (processed_doc : ProcessedDocument.t) (w : World)
    (k : string) :
  k ≠ job_key (ProcessingJob.id job) ->
  k ≠ NLP_RESULTS_QUEUE ->
  live (broker (snd (complete_job self job document processed_doc w))) k =
    live (broker w) k.
Proof.
  intros Hjob Hresults.
  destruct (complete_job_run self job document processed_doc w)
    as (published & w4 & Hpub & Hrun).
  assert (Hb : broker (snd (complete_job self job document processed_doc w)) =
               broker w4) by (rewrite Hrun; by destruct published).
  rewrite Hb.
  replace w4 with (snd (publish_job_result (ProcessingJob.id job)
    (completed_result (ProcessingJob.id job) (Document.id document)
       (ProcessedDocument.dict processed_doc) (pretty (clock w + 1)%N))
    (tick (snd (update_job_status (ProcessingJob.id job) "completed" 100 None
                  (tick w)))))) by (by rewrite Hpub).
  rewrite publish_job_result_live_ne by done.
  unfold tick at 1. simpl. by rewrite update_job_status_live_ne.
Qed.

(** C6, amended: for a job the worker claimed and analysed, when the
    publication reaches the server, the message pushed at the left end of
    the results channel is the wrapper [{job_id, result, timestamp}] whose
    [result] is the envelope [{job_id, document_id, processed_document,
    status: "completed", processed_at}] and whose [timestamp] repeats the
    envelope's [processed_at].  The results channel is a key other than
    the work queue, which the publication leaves alone. *)
Theorem published_result_shape
    (self : RedisConsumer) (w w1 w2 : World) (job : ProcessingJob.t)
    (document : Document.t) (processed_doc : ProcessedDocument.t) :
  claim_job w = (Ret (Some job), w1) ->
  analyse_job process_document SPACY_MODEL job w1 =
    (Ret (document, processed_doc), w2) ->
  call_ok 1 w2 = true ->
  list_key (broker w2) NLP_RESULTS_QUEUE ->
  queue_items (broker (snd (process_next_job self w))) NLP_RESULTS_QUEUE =
    json_dumps
      (VDict [("job_id", VStr (ProcessingJob.id job));
              ("result",
               VDict [("job_id", VStr (ProcessingJob.id job));
                      ("document_id", VStr (Document.id document));
                      ("processed_document", ProcessedDocument.dict processed_doc);
                      ("status", VStr "completed");
                      ("processed_at", VStr (pretty (clock w2 + 1)%N))]);
              ("timestamp", VStr (pretty (clock w2 + 1)%N))])
      :: queue_items (broker w2) NLP_RESULTS_QUEUE /\
  NLP_RESULTS_QUEUE ≠ NLP_QUEUE /\
  queue_items (broker (snd (process_next_job self w))) NLP_QUEUE =
    queue_items (broker w2) NLP_QUEUE.
Proof.
  intros Hclaim Hanalyse Hf Hl.
  rewrite (process_next_job_analysed self w w1 w2 job document processed_doc
             Hclaim Hanalyse).
  destruct (complete_job_effects self job document processed_doc w2)
    as (_ & _ & Hpushed & _).
  destruct (Hpushed Hf Hl) as [_ ->].
  split; [done|]. split; [apply results_not_queue|].
  unfold queue_items. rewrite complete_job_frame; [done| |].
  - intros Heq. symmetry in Heq. by apply job_key_not_queue in Heq.
  - intros Heq. symmetry in Heq. by apply results_not_queue in Heq.
Qed.

(** C10: for a job the worker claimed and analysed, the first call to the
    server is the write of the record "completed" with progress 100 and
    the second is the publication.  [publish_job_result] never raises and
    returns [False] when its call fails.  If the write reaches the server
    the JobStore holds the job as "completed" at the end of the iteration,
    whatever the publication did; if it does not, the record of the job is
    left as it was: no "failed" record is written on this path.  A failed
    publication leaves the results channel and the processed count as they
    were, and a successful one increments the count. *)
Theorem completion_precedes_publication
    (self : RedisConsumer) (w w1 w2 : World) (job : ProcessingJob.t)
    (document : Document.t) (processed_doc : ProcessedDocument.t) :
  claim_job w = (Ret (Some job), w1) ->
  analyse_job process_document SPACY_MODEL job w1 =
    (Ret (document, processed_doc), w2) ->
  (forall job_id result w0,
     exists published, fst (publish_job_result job_id result w0) = Ret published) /\
  (forall job_id result w0,
     call_ok 0 w0 = false ->
     fst (publish_job_result job_id result w0) = Ret false) /\
  (call_ok 0 w2 = true ->
   stored_record (broker (snd (process_next_job self w))) (ProcessingJob.id job) =
     Some (VDict [("status", VStr "completed"); ("progress", VNum 100);
                  ("updated_at", VNone)])) /\
  (call_ok 0 w2 = false ->
   live (broker (snd (process_next_job self w))) (job_key (ProcessingJob.id job)) =
     live (broker w2) (job_key (ProcessingJob.id job))) /\
  (call_ok 1 w2 = false \/ ~ list_key (broker w2) NLP_RESULTS_QUEUE ->
   fst (process_next_job self w) = Ret self /\
   queue_items (broker (snd (process_next_job self w))) NLP_RESULTS_QUEUE =
     queue_items (broker w2) NLP_RESULTS_QUEUE) /\
  (call_ok 1 w2 = true -> list_key (broker w2) NLP_RESULTS_QUEUE ->
   fst (process_next_job self w) = Ret (counted self)).
Proof.
  intros Hclaim Hanalyse.
  rewrite (process_next_job_analysed self w w1 w2 job document processed_doc
             Hclaim Hanalyse).
  destruct (complete_job_effects self job document processed_doc w2)
    as (Hstored & Hskipped & Hpushed & Hdropped).
  split; [intros; apply publish_job_result_returns|].
  split.
  { intros job_id result w0 Hf. apply publish_job_result_dropped.
    left. unfold call_ok in Hf. rewrite <- hd_nth0 in Hf.
    by apply negb_false_iff. }
  split; [done|]. split; [done|]. split.
  - intros Hfail. destruct (Hdropped Hfail) as [Hret Hlive].
    split; [done|]. unfold queue_items. by rewrite Hlive.
  - intros Hf Hl. by destruct (Hpushed Hf Hl).
Qed.

End WorkerProperties.

Lemma empty_queue_pop_is_idle_witness :
  fst (get_processing_job empty_world) = Ret VNone /\
  fst (_process_next_job sample_analyzer "en_core_web_sm" idle_consumer empty_world)
    = Ret idle_consumer /\
  now (broker (snd (_process_next_job sample_analyzer "en_core_web_sm"
                      idle_consumer empty_world))) = 5%N.
Proof.
  destruct (empty_queue_pop_is_idle sample_analyzer "en_core_web_sm" 0
              idle_consumer empty_world) as (Hpop & Hret & _ & _ & _ & Hidle);
    [reflexivity|].
  destruct (Hidle eq_refl) as [Hnow _].
  split; [exact Hpop|]. split; [exact Hret | exact Hnow].
Defined.

Lemma missing_document_fails_job_witness :
  fst (_process_next_job sample_analyzer "en_core_web_sm" idle_consumer
         orphan_world) = Ret idle_consumer /\
  stored_record
    (broker (snd (_process_next_job sample_analyzer "en_core_web_sm"
                    idle_consumer orphan_world))) "job-9" =
    Some (VDict [("status", VStr "failed"); ("progress", VNum 0);
                 ("updated_at", VNone);
                 ("error",
                  VStr "Failed to process document: No document data in job")]) /\
  queue_items
    (broker (snd (_process_next_job sample_analyzer "en_core_web_sm"
                    idle_consumer orphan_world))) NLP_RESULTS_QUEUE =
    [Encoded
       (VDict [("job_id", VStr "job-9");
               ("result",
                VDict [("job_id", VStr "job-9");
                       ("document_id", VStr "d9");
                       ("status", VStr "failed");
                       ("error",
                        VStr "Failed to process document: No document data in job");
                       ("processed_at", VStr "3")]);
               ("timestamp", VStr "3")])].
Proof.
  destruct (missing_document_fails_job sample_analyzer "en_core_web_sm" 0
              idle_consumer orphan_world
              (snd (claim_job orphan_world)) orphan_job)
    as (Hret & _ & _ & Hstored & Hpublished);
    [vm_compute; reflexivity | reflexivity |].
  split; [exact Hret|]. split.
  - apply Hstored. reflexivity.
  - rewrite Hpublished; [reflexivity | reflexivity | exact I].
Defined.

(** C6, as stated, fails: the message on the results channel is not the
    envelope itself but a dictionary with the keys "job_id", "result" and
    "timestamp", the envelope being the value of "result". *)
Lemma bare_envelope_refuted : ~ bare_envelope_published.
Proof.
  intros H.
  destruct (H sample_analyzer "en_core_web_sm" idle_consumer one_waiting
              (snd (claim_job one_waiting)) 
              (snd (analyse_job sample_analyzer "en_core_web_sm" claimed_job
                      (snd (claim_job one_waiting))))
              claimed_job (sample_document "d1" "Apple Inc.") analysed_document)
    as [processed_at Hhead].
  - vm_compute. reflexivity.
  - vm_compute. reflexivity.
  - reflexivity.
  - exact I.
  - vm_compute in Hhead. discriminate.
Qed.

Lemma published_result_shape_witness :
  head (queue_items
          (broker (snd (_process_next_job sample_analyzer "en_core_web_sm"
                          idle_consumer one_waiting))) NLP_RESULTS_QUEUE) =
    Some (Encoded
            (VDict [("job_id", VStr "job-1");
                    ("result",
                     VDict [("job_id", VStr "job-1");
                            ("document_id", VStr "d1");
                            ("processed_document",
                             VDict [("document",
                                     VDict [("id", VStr "d1");
                                            ("content", VStr "Apple Inc.");
                                            ("metadata", VDict []);
                                            ("created_at",
                                             VStr "2024-01-01T00:00:00")]);
                                    ("analysis",
                                     VDict [("word_count", VNum 1);
                                            ("sentence_count", VNum 1)]);
                                    ("processed_at", VStr "1");
                                    ("processing_version", VStr "1.0.0");
                                    ("model_used", VStr "en_core_web_sm")]);
                            ("status", VStr "completed");
                            ("processed_at", VStr "3")]);
                    ("timestamp", VStr "3")])).
Proof.
  destruct (published_result_shape sample_analyzer "en_core_web_sm"
              idle_consumer one_waiting
              (snd (claim_job one_waiting))
              (snd (analyse_job sample_analyzer "en_core_web_sm" claimed_job
                      (snd (claim_job one_waiting))))
              claimed_job (sample_document "d1" "Apple Inc.") analysed_document)
    as [Hitems _];
    [vm_compute; reflexivity | vm_compute; reflexivity | reflexivity | exact I |].
  rewrite Hitems. reflexivity.
Defined.

Lemma completion_precedes_publication_witness :
  stored_record
    (broker (snd (_process_next_job sample_analyzer "en_core_web_sm"
                    idle_consumer drops_before_publication))) "job-1" =
    Some (VDict [("status", VStr "completed"); ("progress", VNum 100);
                 ("updated_at", VNone)]) /\
  fst (_process_next_job sample_analyzer "en_core_web_sm" idle_consumer
         drops_before_publication) = Ret idle_consumer.
Proof.
  destruct (completion_precedes_publication sample_analyzer "en_core_web_sm"
              idle_consumer drops_before_publication
              (snd (claim_job drops_before_publication))
              (snd (analyse_job sample_analyzer "en_core_web_sm" claimed_job
                      (snd (claim_job drops_before_publication))))
              claimed_job (sample_document "d1" "Apple Inc.") analysed_document)
    as (_ & _ & Hstored & _ & Hdropped & _);
    [vm_compute; reflexivity | vm_compute; reflexivity |].
  split.
  - apply Hstored. reflexivity.
  - apply Hdropped. left. reflexivity.
Defined.



(** * Further properties of the code *)

(** ** Round trips of the models *)

Lemma JobStatus_round_trip (st : JobStatus) :
  JobStatus_of_value (JobStatus_value st) = Some st.
Proof. by destruct st. Qed.

(** X1: building a [ProcessingJob] from the dictionary of a job gives that
    job back, and does not read the clock. *)
Theorem ProcessingJob_round_trip (job : ProcessingJob.t) (w : World) :
  ProcessingJob.init (ProcessingJob.dict job) w = (Ret job, w).
Proof.
  destruct job as [i di st ca sa co em pr md].
  unfold ProcessingJob.init, ProcessingJob.dict, ProcessingJob.validate, bind,
    default_datetime, lift, ret.
  cbn -[JobStatus_of_value JobStatus_value].
  unfold ProcessingJob.status_field.
  cbn -[JobStatus_of_value JobStatus_value].
  rewrite JobStatus_round_trip.
  by destruct sa, co, em, md.
Qed.

(** X2: building a [Document] from the dictionary of a document gives that
    document back, and does not read the clock. *)
Theorem Document_round_trip (document : Document.t) (w : World) :
  Document.init (Document.dict document) w = (Ret document, w).
Proof.
  destruct document as [i c md ca].
  unfold Document.init, Document.dict, Document.validate, bind,
    default_datetime, lift, ret.
  by destruct md.
Qed.

(** ** Entries the worker drops *)

(** X3: an entry of the work queue that is not the JSON text of an object
    is consumed and dropped: text that is not JSON, and JSON text of a list,
    a string, a number, a boolean or null, on which [get_processing_job]
    fails when it asks the decoded value for its "id".  The iteration of the
    worker that pops it returns normally with the processed count unchanged,
    the entry is gone from the queue, no other key of the server changes,
    and the wrapper logs the error, which for text that is not JSON is the
    message of the decoder. *)
Theorem unusable_entry_is_dropped
    (process_document : Document.t -> outcome value) (SPACY_MODEL : string)
    (self : RedisConsumer) (w : World) (rest : list wire) (m : wire) :
  call_ok 0 w = true ->
  queue_items (broker w) NLP_QUEUE = (rest ++ [m])%list ->
  (forall fields, m ≠ Encoded (VDict fields)) ->
  fst (_process_next_job process_document SPACY_MODEL self w) = Ret self /\
  queue_items (broker (snd (_process_next_job process_document SPACY_MODEL self w)))
    NLP_QUEUE = rest /\
  (forall k, k ≠ NLP_QUEUE ->
     live (broker (snd (_process_next_job process_document SPACY_MODEL self w))) k =
       live (broker w) k) /\
  (exists error,
     errlog (snd (_process_next_job process_document SPACY_MODEL self w)) =
       ("Failed to get processing job: " +:+ error) :: errlog w) /\
  (forall text error,
     m = Malformed text error ->
     errlog (snd (_process_next_job process_document SPACY_MODEL self w)) =
       ("Failed to get processing job: " +:+ error) :: errlog w).
Proof.
  unfold call_ok. rewrite <- hd_nth0. intros Hf Hq Hm. apply negb_true_iff in Hf.
  unfold _process_next_job, claim_job, get_processing_job, try_except, bind,
    redis_call.
  rewrite Hf, (brpop_tail _ _ _ _ Hq).
  assert (Hframe : forall k, k ≠ NLP_QUEUE ->
            live (popped (broker w) rest) k = live (broker w) k)
    by (intros k Hk; by apply popped_live_ne).
  pose proof (popped_queue (broker w) rest) as Hrest.
  destruct m as [v|text error]; simpl.
  - destruct v; try (by destruct (Hm fields)); simpl;
      (split; [done|]); (split; [done|]); (split; [done|]);
      (split; [by eexists | by intros ? ? ?]).
  - split; [done|]. split; [done|]. split; [done|].
    split; [by eexists|]. by intros ? ? [= _ <-].
Qed.

Lemma unusable_entry_is_dropped_witness :
  fst (_process_next_job sample_analyzer "en_core_web_sm" idle_consumer
         garbled_queue) = Ret idle_consumer /\
  queue_items
    (broker (snd (_process_next_job sample_analyzer "en_core_web_sm"
                    idle_consumer garbled_queue))) NLP_QUEUE = [] /\
  errlog (snd (_process_next_job sample_analyzer "en_core_web_sm"
                 idle_consumer garbled_queue)) =
    ["Failed to get processing job: Expecting value: line 1 column 1 (char 0)"].
Proof.
  destruct (unusable_entry_is_dropped sample_analyzer "en_core_web_sm"
              idle_consumer garbled_queue []
              (Malformed "not json" "Expecting value: line 1 column 1 (char 0)"))
    as (Hret & Hq & _ & _ & Hlog);
    [reflexivity | reflexivity | discriminate |].
  split; [exact Hret|]. split; [exact Hq|].
  exact (Hlog _ _ eq_refl).
Defined.

(** ** One iteration on a queued job *)

Lemma ProcessingJob_init_entry (job_id : string) (document : Document.t)
    (created : string) (w : World) :
  datetime_text created = true ->
  ProcessingJob.init (job_entry job_id document created) w =
    (Ret (waiting_job job_id document created), w).
Proof.
  intros Hcreated.
  unfold ProcessingJob.init, job_entry, ProcessingJob.validate, bind,
    default_datetime, lift, ret, datetime_field.
  cbn -[datetime_text]. by rewrite Hcreated.
Qed.

Lemma Document_init_entry (document : Document.t) (w : World) :
  datetime_text (Document.created_at document) = true ->
  Document.init (document_entry document) w = (Ret document, w).
Proof.
  intros Hcreated. destruct document as [i c md ca]. simpl in Hcreated.
  unfold Document.init, document_entry, Document.validate, bind,
    default_datetime, lift, ret, datetime_field.
  cbn -[datetime_text]. rewrite Hcreated. by destruct md.
Qed.

Section EndToEnd.

Variable process_document : Document.t -> outcome value.
Variable SPACY_MODEL : string.

Abbreviation iteration := (_process_next_job process_document SPACY_MODEL).

Lemma claim_job_queued (w : World) (rest : list wire) (job_id : string)
    (document : Document.t) (created : string) :
  hd false (faults w) = false ->
  queue_items (broker w) NLP_QUEUE =
    (rest ++ [Encoded (job_entry job_id document created)])%list ->
  datetime_text created = true ->
  claim_job w =
    (Ret (Some (claimed job_id document created (clock w))),
     after_claim job_id rest w).
Proof.
  intros Hf Hq Hcreated. unfold claim_job, bind at 1.
  rewrite (get_processing_job_tail w rest _ Hf Hq).
  assert (Htruthy : truthy (job_entry job_id document created) = true) by done.
  fold (job_entry job_id document created).
  rewrite Htruthy. cbn [negb]. unfold bind at 1.
  rewrite (ProcessingJob_init_entry job_id document created _ Hcreated).
  unfold ProcessingJob.start_processing, bind, after_claim, tick, utcnow, ret.
  simpl.
  match goal with |- context [update_job_status ?i ?s ?p ?e ?w0] =>
    pose proof (update_job_status_returns i s p e w0) as Hu;
    destruct (update_job_status i s p e w0) as [[[]|e1] w3] end;
    simpl in *; [done|discriminate].
Qed.

Lemma after_claim_facts (w : World) (rest : list wire) (job_id : string) :
  faults (after_claim job_id rest w) = tl (tl (faults w)) /\
  clock (after_claim job_id rest w) = (clock w + 1)%N /\
  queue_items (broker (after_claim job_id rest w)) NLP_QUEUE = rest /\
  (forall k, k ≠ NLP_QUEUE -> k ≠ job_key job_id ->
     live (broker (after_claim job_id rest w)) k = live (broker w) k).
Proof.
  unfold after_claim.
  destruct (update_job_status_schedule job_id "processing" 0 None
              (tick (set_broker (popped (broker w) rest) (consume w))))
    as [Hf Hc].
  split; [by rewrite Hf|]. split; [by rewrite Hc|]. split.
  - unfold queue_items.
    rewrite update_job_status_live_ne
      by (intros H; symmetry in H; by apply job_key_not_queue in H).
    apply popped_queue.
  - intros k Hq Hj. rewrite update_job_status_live_ne by done.
    simpl. by apply popped_live_ne.
Qed.

Lemma analyse_job_claimed (w : World) (job_id : string) (document : Document.t)
    (created : string) (c : N) :
  datetime_text (Document.created_at document) = true ->
  analyse_job process_document SPACY_MODEL (claimed job_id document created c) w =
    match process_document document with
    | Ret analysis =>
        (Ret (document, processed document analysis SPACY_MODEL (clock w)), tick w)
    | Raise e => (Raise e, w)
    end.
Proof.
  intros Hcreated.
  assert (Hmeta : metadata_document (claimed job_id document created c) =
                  Ret (document_entry document)) by done.
  assert (Htruthy : truthy (document_entry document) = true) by done.
  unfold analyse_job, bind at 1, lift at 1.
  rewrite Hmeta, Htruthy. cbn [negb]. unfold bind at 1.
  rewrite Document_init_entry by done.
  unfold bind, lift, tick, utcnow, processed, ret.
  by destruct (process_document document).
Qed.

Lemma publish_job_result_schedule (job_id : string)
    (result : list (string * value)) (w : World) :
  faults (snd (publish_job_result job_id result w)) = tl (faults w).
Proof.
  destruct (hd false (faults w)) eqn:Hf.
  - destruct (publish_job_result_fails job_id result w) as [msg ->]; [by left|done].
  - destruct (live (broker w) NLP_RESULTS_QUEUE) as [[p ex|items]|] eqn:Hq.
    + destruct (publish_job_result_fails job_id result w) as [msg ->]; [|done].
      right. unfold list_key. rewrite Hq. tauto.
    + by rewrite publish_job_result_ok; [|done|by unfold list_key; rewrite Hq].
    + by rewrite publish_job_result_ok; [|done|by unfold list_key; rewrite Hq].
Qed.

Lemma complete_job_schedule (self : RedisConsumer) (job : ProcessingJob.t)
    (document : Document.t) (processed_doc : ProcessedDocument.t) (w : World) :
  faults (snd (complete_job self job document processed_doc w)) =
    tl (tl (faults w)).
Proof.
  destruct (complete_job_run self job document processed_doc w)
    as (published & w4 & Hpub & Hrun).
  assert (Hw4 : faults w4 = tl (tl (faults w))).
  { replace w4 with (snd (publish_job_result (ProcessingJob.id job)
      (completed_result (ProcessingJob.id job) (Document.id document)
         (ProcessedDocument.dict processed_doc) (pretty (clock w + 1)%N))
      (tick (snd (update_job_status (ProcessingJob.id job) "completed" 100 None
                    (tick w)))))) by (by rewrite Hpub).
    rewrite publish_job_result_schedule. unfold tick at 1. simpl.
    by destruct (update_job_status_schedule (ProcessingJob.id job) "completed"
                   100 None (tick w)) as [-> _]. }
  rewrite Hrun. by destruct published.
Qed.

Lemma fail_job_frame (self : RedisConsumer) (job : ProcessingJob.t) (e : exn)
    (w : World) (k : string) :
  k ≠ job_key (ProcessingJob.id job) ->
  k ≠ NLP_RESULTS_QUEUE ->
  live (broker (snd (fail_job self job e w))) k = live (broker w) k.
Proof.
  intros Hjob Hresults. rewrite fail_job_world.
  rewrite publish_job_result_live_ne by done.
  unfold tick at 1. simpl. by rewrite update_job_status_live_ne.
Qed.

Lemma fail_job_schedule (self : RedisConsumer) (job : ProcessingJob.t) (e : exn)
    (w : World) :
  faults (snd (fail_job self job e w)) = tl (tl (faults w)).
Proof.
  rewrite fail_job_world, publish_job_result_schedule.
  unfold tick at 1. simpl.
  by destruct (update_job_status_schedule (ProcessingJob.id job) "failed" 0
                 (Some (failure_message e))
                 (tick (logged ("Job " +:+ ProcessingJob.id job +:+ " failed: "
                                  +:+ failure_message e) w))) as [-> _].
Qed.

Lemma stored_record_other (b b' : Broker) (job_id other : string) :
  (forall k, k ≠ NLP_QUEUE -> k ≠ NLP_RESULTS_QUEUE -> k ≠ job_key job_id ->
     live b' k = live b k) ->
  other ≠ job_id ->
  stored_record b' other = stored_record b other.
Proof.
  intros Hframe Hne. unfold stored_record. rewrite Hframe; [done| | |].
  - apply job_key_not_queue.
  - apply job_key_not_results.
  - intros Heq. by apply job_key_inj in Heq.
Qed.

(** X4: when the entry at the right end of the work queue is the JSON of a
    pending job with its document embedded, the connection is healthy and
    the analyzer succeeds on the document, one iteration of the worker
    analyses exactly that document, takes the entry off the queue, leaves
    the record of the job "completed" with progress 100, pushes the result
    message on the results channel and increments the processed count.  The
    records of other jobs are untouched. *)
Theorem iteration_completes_queued_job
    (self : RedisConsumer) (w : World) (rest : list wire) (job_id : string)
    (document : Document.t) (created : string) (analysis : value) :
  healthy w ->
  queue_items (broker w) NLP_QUEUE =
    (rest ++ [Encoded (job_entry job_id document created)])%list ->
  datetime_text created = true ->
  datetime_text (Document.created_at document) = true ->
  process_document document = Ret analysis ->
  fst (iteration self w) =
    Ret {| running := running self;
           processed_count := S (processed_count self) |} /\
  queue_items (broker (snd (iteration self w))) NLP_QUEUE = rest /\
  stored_record (broker (snd (iteration self w))) job_id =
    Some (VDict [("status", VStr "completed"); ("progress", VNum 100);
                 ("updated_at", VNone)]) /\
  queue_items (broker (snd (iteration self w))) NLP_RESULTS_QUEUE =
    json_dumps
      (VDict [("job_id", VStr job_id);
              ("result",
               VDict [("job_id", VStr job_id);
                      ("document_id", VStr (Document.id document));
                      ("processed_document",
                       ProcessedDocument.dict
                         {| ProcessedDocument.document := document;
                            ProcessedDocument.analysis := analysis;
                            ProcessedDocument.processed_at :=
                              pretty (clock w + 1)%N;
                            ProcessedDocument.processing_version := "1.0.0";
                            ProcessedDocument.model_used := SPACY_MODEL |});
                      ("status", VStr "completed");
                      ("processed_at", VStr (pretty (clock w + 3)%N))]);
              ("timestamp", VStr (pretty (clock w + 3)%N))])
      :: queue_items (broker w) NLP_RESULTS_QUEUE /\
  (forall other, other ≠ job_id ->
     stored_record (broker (snd (iteration self w))) other =
       stored_record (broker w) other) /\
  healthy (snd (iteration self w)).
Proof.
  intros [Hf Hl] Hq Hcreated Hdocument Hproc.
  assert (Hf0 : hd false (faults w) = false) by (by rewrite Hf).
  pose proof (claim_job_queued w rest job_id document created Hf0 Hq Hcreated)
    as Hclaim.
  pose proof (analyse_job_claimed (after_claim job_id rest w) job_id document
                created (clock w) Hdocument) as Hanalyse.
  rewrite Hproc in Hanalyse.
  destruct (after_claim_facts w rest job_id) as (Hf1 & Hc1 & Hq1 & Hframe1).
  rewrite Hc1 in Hanalyse.
  rewrite (process_next_job_analysed process_document SPACY_MODEL self w _ _ _ _ _
             Hclaim Hanalyse).
  set (job := claimed job_id document created (clock w)).
  set (pdoc := processed document analysis SPACY_MODEL (clock w + 1)).
  set (w2 := tick (after_claim job_id rest w)).
  assert (Hf2 : faults w2 = []) by (unfold w2, tick; simpl; by rewrite Hf1, Hf).
  assert (Hc2 : clock w2 = (clock w + 2)%N)
    by (unfold w2, tick; simpl; rewrite Hc1; lia).
  assert (Hlive2 : forall k, k ≠ NLP_QUEUE -> k ≠ job_key job_id ->
                     live (broker w2) k = live (broker w) k)
    by (intros k Hk1 Hk2; unfold w2, tick; simpl; by apply Hframe1).
  assert (Hl2 : list_key (broker w2) NLP_RESULTS_QUEUE).
  { unfold list_key. rewrite Hlive2; [done|apply results_not_queue|].
    intros H. symmetry in H. by apply job_key_not_results in H. }
  destruct (complete_job_effects self job document pdoc w2)
    as (Hstored & _ & Hpushed & _).
  destruct Hpushed as [Hret Hitems]; [by unfold call_ok; rewrite Hf2|done|].
  assert (Hframe : forall k, k ≠ NLP_QUEUE -> k ≠ NLP_RESULTS_QUEUE ->
                     k ≠ job_key job_id ->
                     live (broker (snd (complete_job self job document pdoc w2))) k =
                       live (broker w) k).
  { intros k Hk1 Hk2 Hk3. rewrite complete_job_frame by done. by apply Hlive2. }
  split; [done|]. split.
  { unfold queue_items at 1. rewrite complete_job_frame.
    - fold (queue_items (broker w2) NLP_QUEUE). by unfold w2, tick.
    - intros H. symmetry in H. by apply job_key_not_queue in H.
    - intros H. symmetry in H. by apply results_not_queue in H. }
  split; [by apply Hstored; unfold call_ok; rewrite Hf2|].
  split.
  { rewrite Hitems, Hc2. replace (clock w + 2 + 1)%N with (clock w + 3)%N by lia.
    unfold queue_items at 1. rewrite Hlive2; [done|apply results_not_queue|].
    intros H. symmetry in H. by apply job_key_not_results in H. }
  split; [intros other Hne; by apply (stored_record_other _ _ job_id)|].
  split.
  - by rewrite complete_job_schedule, Hf2.
  - by apply list_key_of_items in Hitems.
Qed.

(** X5: in the same situation, when the analyzer raises on the document,
    the iteration returns normally with the processed count unchanged, takes
    the entry off the queue, leaves the record of the job "failed" with the
    message "Failed to process document: " followed by the text of the
    exception, and pushes on the results channel the message [{job_id,
    result, timestamp}] whose [result] is [{job_id, document_id, status:
    "failed", error, processed_at}].  The records of other jobs are
    untouched. *)
Theorem iteration_fails_queued_job
    (self : RedisConsumer) (w : World) (rest : list wire) (job_id : string)
    (document : Document.t) (created : string) (e : exn) :
  healthy w ->
  queue_items (broker w) NLP_QUEUE =
    (rest ++ [Encoded (job_entry job_id document created)])%list ->
  datetime_text created = true ->
  datetime_text (Document.created_at document) = true ->
  process_document document = Raise e ->
  fst (iteration self w) = Ret self /\
  queue_items (broker (snd (iteration self w))) NLP_QUEUE = rest /\
  stored_record (broker (snd (iteration self w))) job_id =
    Some (VDict [("status", VStr "failed"); ("progress", VNum 0);
                 ("updated_at", VNone);
                 ("error", VStr ("Failed to process document: " +:+ str_exn e))]) /\
  queue_items (broker (snd (iteration self w))) NLP_RESULTS_QUEUE =
    json_dumps
      (VDict [("job_id", VStr job_id);
              ("result",
               VDict [("job_id", VStr job_id);
                      ("document_id", VStr (Document.id document));
                      ("status", VStr "failed");
                      ("error",
                       VStr ("Failed to process document: " +:+ str_exn e));
                      ("processed_at", VStr (pretty (clock w + 2)%N))]);
              ("timestamp", VStr (pretty (clock w + 2)%N))])
      :: queue_items (broker w) NLP_RESULTS_QUEUE /\
  (forall other, other ≠ job_id ->
     stored_record (broker (snd (iteration self w))) other =
       stored_record (broker w) other) /\
  healthy (snd (iteration self w)).
Proof.
  intros [Hf Hl] Hq Hcreated Hdocument Hproc.
  assert (Hf0 : hd false (faults w) = false) by (by rewrite Hf).
  pose proof (claim_job_queued w rest job_id document created Hf0 Hq Hcreated)
    as Hclaim.
  pose proof (analyse_job_claimed (after_claim job_id rest w) job_id document
                created (clock w) Hdocument) as Hanalyse.
  rewrite Hproc in Hanalyse.
  destruct (after_claim_facts w rest job_id) as (Hf1 & Hc1 & Hq1 & Hframe1).
  rewrite (process_next_job_failed process_document SPACY_MODEL self w _ _ _ _
             Hclaim Hanalyse).
  set (job := claimed job_id document created (clock w)).
  set (w1 := after_claim job_id rest w) in *.
  assert (Hf1' : faults w1 = []) by (by rewrite Hf1, Hf).
  assert (Hl1 : list_key (broker w1) NLP_RESULTS_QUEUE).
  { unfold list_key. rewrite Hframe1; [done|apply results_not_queue|].
    intros H. symmetry in H. by apply job_key_not_results in H. }
  destruct (fail_job_effects self job e w1) as [Hstored Hpushed].
  assert (Hitems := Hpushed ltac:(by unfold call_ok; rewrite Hf1') Hl1).
  assert (Hframe : forall k, k ≠ NLP_QUEUE -> k ≠ NLP_RESULTS_QUEUE ->
                     k ≠ job_key job_id ->
                     live (broker (snd (fail_job self job e w1))) k =
                       live (broker w) k).
  { intros k Hk1 Hk2 Hk3. rewrite fail_job_frame by done. by apply Hframe1. }
  split; [apply fail_job_returns|]. split.
  { unfold queue_items at 1. rewrite fail_job_frame.
    - done.
    - intros H. symmetry in H. by apply job_key_not_queue in H.
    - intros H. symmetry in H. by apply results_not_queue in H. }
  split; [by apply Hstored; unfold call_ok; rewrite Hf1'|].
  split.
  { rewrite Hitems, Hc1. replace (clock w + 1 + 1)%N with (clock w + 2)%N by lia.
    unfold queue_items at 1. rewrite Hframe1; [done|apply results_not_queue|].
    intros H. symmetry in H. by apply job_key_not_results in H. }
  split; [intros other Hne; by apply (stored_record_other _ _ job_id)|].
  split.
  - by rewrite fail_job_schedule, Hf1'.
  - by apply list_key_of_items in Hitems.
Qed.

(** ** The loop of the worker *)

Abbreviation loop := (start process_document SPACY_MODEL).

(** An iteration returns the consumer as it was or with one more processed
    job. *)
Lemma iteration_count (self : RedisConsumer) (w : World) :
  exists self',
    fst (iteration self w) = Ret self' /\ (self' = self \/ self' = counted self).
Proof.
  unfold _process_next_job, try_except at 1, bind at 1.
  destruct (claim_job w) as [[[job|]|e] w1]; simpl; [|by eauto|by eauto].
  unfold try_except.
  destruct (process_job process_document SPACY_MODEL self job w1)
    as [[s|e] w2] eqn:Hp; simpl.
  - exists s. split; [done|]. revert Hp. unfold process_job, bind.
    destruct (analyse_job process_document SPACY_MODEL job w1)
      as [[[document pdoc]|e] w2'];
      [|discriminate].
    simpl.
    destruct (complete_job_run self job document pdoc w2')
      as (published & w4 & _ & ->).
    destruct published; intros [= <- <-]; [by right | by left].
  - exists self. split; [|by left].
    pose proof (fail_job_returns self job e w2) as Hret.
    by destruct (fail_job self job e w2) as [[s|e'] w3]; simpl in *; subst.
Qed.

(** X6: the loop of the worker never raises.  After [n] iterations and
    the shutdown signal the consumer is not running, and its processed count
    has grown by at least 0 and at most [n]. *)
Theorem loop_counts_at_most_iterations
    (n : nat) (self : RedisConsumer) (w : World) :
  exists self',
    fst (loop n self w) = Ret self' /\
    running self' = false /\
    processed_count self <= processed_count self' <= processed_count self + n.
Proof.
  revert self w. induction n as [|n IH]; intros self w.
  - eexists. split; [reflexivity|]. simpl. split; [done|lia].
  - destruct (consumer_loop_continues process_document SPACY_MODEL n self w)
      as (self1 & Hret & ->).
    destruct (IH self1 (snd (iteration self w))) as (self' & Hloop & Hrun & Hcount).
    exists self'. split; [done|]. split; [done|].
    destruct (iteration_count self w) as (s & Hs & Hcase).
    rewrite Hs in Hret. injection Hret as <-.
    destruct Hcase as [-> | ->]; simpl in *; lia.
Qed.

(** The loop on a queue of pushed jobs, with the jobs already completed
    carried along. *)
Lemma loop_drains (created : string) (jobs : list (string * Document.t)) :
  forall (self : RedisConsumer) (w : World) (completed : list string),
    healthy w ->
    queue_items (broker w) NLP_QUEUE = rev (map Encoded (job_entries created jobs)) ->
    datetime_text created = true ->
    Forall (analysable process_document) jobs ->
    Forall (fun job_id => stored_record (broker w) job_id = Some completed_record)
      completed ->
    exists self',
      fst (loop (length jobs) self w) = Ret self' /\
      running self' = false /\
      processed_count self' = processed_count self + length jobs /\
      queue_items (broker (snd (loop (length jobs) self w))) NLP_QUEUE = [] /\
      length (queue_items (broker (snd (loop (length jobs) self w)))
                NLP_RESULTS_QUEUE) =
        length jobs + length (queue_items (broker w) NLP_RESULTS_QUEUE) /\
      Forall (fun job_id =>
                stored_record (broker (snd (loop (length jobs) self w))) job_id =
                  Some completed_record)
        (map fst jobs ++ completed)%list.
Proof.
  induction jobs as [|[job_id document] rest IH];
    intros self w completed Hhealthy Hq Hcreated Hanalyzer Hdone.
  - eexists. split; [reflexivity|]. simpl. split; [done|].
    split; [lia|]. by split.
  - apply Forall_cons in Hanalyzer as [[Hdocument [analysis Hproc]] Hanalyzer].
    simpl in Hq, Hdocument, Hproc.
    destruct (iteration_completes_queued_job self w
                (rev (map Encoded (job_entries created rest))) job_id document
                created analysis Hhealthy Hq Hcreated Hdocument Hproc)
      as (Hret & Hq1 & Hstored & Hres & Hothers & Hhealthy1).
    fold (counted self) in Hret.
    destruct (consumer_loop_continues process_document SPACY_MODEL (length rest)
                self w) as (self1 & Hret1 & Hloop).
    rewrite Hret in Hret1. injection Hret1 as <-.
    assert (Hdone1 : Forall (fun j => stored_record
                                        (broker (snd (iteration self w))) j =
                                      Some completed_record)
                       (job_id :: completed)).
    { apply Forall_cons. split; [done|].
      eapply Forall_impl; [exact Hdone|]. intros j Hj. simpl in *.
      destruct (decide (j = job_id)) as [->|Hne]; [done|].
      by rewrite Hothers. }
    destruct (IH (counted self) (snd (iteration self w))
                (job_id :: completed) Hhealthy1 Hq1 Hcreated Hanalyzer Hdone1)
      as (self' & Hl & Hrun & Hcount & Hempty & Hlen & Hall).
    exists self'.
    change (length ((job_id, document) :: rest)) with (S (length rest)).
    rewrite Hloop.
    split; [done|]. split; [done|].
    split; [simpl in Hcount; lia|]. split; [done|].
    split; [rewrite Hlen, Hres; simpl length; lia|].
    change (map fst ((job_id, document) :: rest)) with (job_id :: map fst rest).
    apply Forall_app in Hall as [Hall1 Hall2].
    apply Forall_cons in Hall2 as [Hid Hall2].
    apply Forall_app. split; [|done]. by apply Forall_cons.
Qed.

(** X7: [submit_job] writes the work queue and the record of its own
    job, and no other key: the records of other jobs and the results channel
    are as they were, whether the submission succeeds or fails. *)
Theorem submit_job_frame (w : World) (job_id : string) (document : Document.t)
    (k : string) :
  k ≠ NLP_QUEUE ->
  k ≠ job_key job_id ->
  live (broker (snd (submit_job job_id document w))) k = live (broker w) k.
Proof.
  intros Hq Hj. by destruct (submit_job_raises w job_id document) as [_ ->].
Qed.

Lemma submit_job_frame_witness :
  queue_items
    (broker (snd (submit_job "job-2" (sample_document "d2" "second")
                    processed_world))) NLP_RESULTS_QUEUE =
    queue_items (broker processed_world) NLP_RESULTS_QUEUE.
Proof.
  unfold queue_items.
  rewrite (submit_job_frame processed_world "job-2"
             (sample_document "d2" "second") NLP_RESULTS_QUEUE);
    [reflexivity | discriminate | discriminate].
Defined.

(** X8: when jobs are pushed on an empty queue, each with its document
    embedded, and the analyzer succeeds on each document, as many iterations
    of the worker over a healthy connection as there are jobs return with
    the processed count grown by that number, the work queue empty, one more
    message on the results channel per job, and the record of every job
    "completed" with progress 100. *)
Theorem queued_jobs_all_complete
    (created : string) (jobs : list (string * Document.t))
    (self : RedisConsumer) (w : World) :
  healthy w ->
  live (broker w) NLP_QUEUE = None ->
  datetime_text created = true ->
  Forall (analysable process_document) jobs ->
  exists self',
    fst (loop (length jobs) self (enqueue_all (job_entries created jobs) w)) =
      Ret self' /\
    processed_count self' = processed_count self + length jobs /\
    queue_items
      (broker (snd (loop (length jobs) self
                      (enqueue_all (job_entries created jobs) w))))
      NLP_QUEUE = [] /\
    length (queue_items
              (broker (snd (loop (length jobs) self
                              (enqueue_all (job_entries created jobs) w))))
              NLP_RESULTS_QUEUE) =
      length jobs + length (queue_items (broker w) NLP_RESULTS_QUEUE) /\
    Forall (fun job_id =>
              stored_record
                (broker (snd (loop (length jobs) self
                                (enqueue_all (job_entries created jobs) w))))
                job_id =
                Some (VDict [("status", VStr "completed"); ("progress", VNum 100);
                             ("updated_at", VNone)]))
      (map fst jobs).
Proof.
  intros [Hf Hr] Hq Hcreated Hanalyzer.
  assert (Hl : list_key (broker w) NLP_QUEUE) by (unfold list_key; by rewrite Hq).
  pose proof (enqueue_all_queue (job_entries created jobs) w Hl) as Hitems.
  assert (Hempty : queue_items (broker w) NLP_QUEUE = [])
    by (unfold queue_items; by rewrite Hq).
  rewrite Hempty, app_nil_r in Hitems.
  destruct (enqueue_all_frame (job_entries created jobs) w) as (Hf' & _ & Hlive').
  assert (Hres : queue_items (broker (enqueue_all (job_entries created jobs) w))
                   NLP_RESULTS_QUEUE = queue_items (broker w) NLP_RESULTS_QUEUE)
    by (unfold queue_items; by rewrite Hlive' by apply results_not_queue).
  assert (Hhealthy : healthy (enqueue_all (job_entries created jobs) w)).
  { split; [by rewrite Hf'|]. unfold list_key.
    by rewrite Hlive' by apply results_not_queue. }
  destruct (loop_drains created jobs self
              (enqueue_all (job_entries created jobs) w) []
              Hhealthy Hitems Hcreated Hanalyzer (Forall_nil_2 _))
    as (self' & Hret & _ & Hcount & Hq' & Hlen & Hall).
  exists self'. split; [done|]. split; [done|]. split; [done|].
  split; [by rewrite Hlen, Hres|]. by rewrite app_nil_r in Hall.
Qed.

End EndToEnd.

Lemma iteration_completes_queued_job_witness :
  stored_record
    (broker (snd (_process_next_job sample_analyzer "en_core_web_sm"
                    idle_consumer two_waiting))) "job-1" =
    Some (VDict [("status", VStr "completed"); ("progress", VNum 100);
                 ("updated_at", VNone)]) /\
  queue_items
    (broker (snd (_process_next_job sample_analyzer "en_core_web_sm"
                    idle_consumer two_waiting))) NLP_QUEUE =
    [Encoded (sample_entry "job-2" "d2" "second")].
Proof.
  destruct (iteration_completes_queued_job sample_analyzer "en_core_web_sm"
              idle_consumer two_waiting
              [Encoded (sample_entry "job-2" "d2" "second")]
              "job-1" (sample_document "d1" "first") "2024-01-01T00:00:05"
              (VDict [("word_count", VNum 1); ("sentence_count", VNum 1)]))
    as (_ & Hq & Hstored & _);
    [split; [reflexivity | exact I] | reflexivity | reflexivity | reflexivity
    | reflexivity |].
  split; [exact Hstored | exact Hq].
Defined.

Lemma iteration_fails_queued_job_witness :
  stored_record
    (broker (snd (_process_next_job failing_analyzer "en_core_web_sm"
                    idle_consumer one_waiting))) "job-1" =
    Some (VDict [("status", VStr "failed"); ("progress", VNum 0);
                 ("updated_at", VNone);
                 ("error",
                  VStr "Failed to process document: model not loaded")]) /\
  queue_items
    (broker (snd (_process_next_job failing_analyzer "en_core_web_sm"
                    idle_consumer one_waiting))) NLP_RESULTS_QUEUE =
    [Encoded
       (VDict [("job_id", VStr "job-1");
               ("result",
                VDict [("job_id", VStr "job-1");
                       ("document_id", VStr "d1");
                       ("status", VStr "failed");
                       ("error",
                        VStr "Failed to process document: model not loaded");
                       ("processed_at", VStr "2")]);
               ("timestamp", VStr "2")])].
Proof.
  destruct (iteration_fails_queued_job failing_analyzer "en_core_web_sm"
              idle_consumer one_waiting [] "job-1"
              (sample_document "d1" "Apple Inc.") "2024-01-01T00:00:05"
              (Exception "model not loaded"))
    as (_ & _ & Hstored & Hpublished & _);
    [split; [reflexivity | exact I] | reflexivity | reflexivity | reflexivity
    | reflexivity |].
  split; [exact Hstored | exact Hpublished].
Defined.

Lemma queued_jobs_all_complete_witness :
  exists self',
    fst (start sample_analyzer "en_core_web_sm" 2 idle_consumer two_waiting) =
      Ret self' /\
    processed_count self' = 2.
Proof.
  destruct (queued_jobs_all_complete sample_analyzer "en_core_web_sm"
              "2024-01-01T00:00:05"
              [("job-1", sample_document "d1" "first");
               ("job-2", sample_document "d2" "second")]
              idle_consumer empty_world)
    as (self' & Hret & Hcount & _).
  - split; [reflexivity | exact I].
  - reflexivity.
  - reflexivity.
  - repeat constructor; eexists; reflexivity.
  - exists self'. split; [exact Hret | exact Hcount].
Defined.

(** ** Reading a stored record *)

Lemma get_job_status_found (w : World) (job_id : string)
    (fields : list (string * value)) :
  hd false (faults w) = false ->
  stored_record (broker w) job_id = Some (VDict fields) ->
  fields ≠ [] ->
  fst (get_job_status job_id w) =
    Ret (VDict (dict_update [("job_id", VStr job_id)] fields)).
Proof.
  intros Hf Hrec Hne. unfold stored_record in Hrec.
  unfold get_job_status, RedisService.get_job_status, try_except, bind,
    redis_call, redis_get.
  rewrite Hf.
  destruct (live (broker w) (job_key job_id)) as [[[v|text] ex|items]|];
    try done.
  injection Hrec as ->. simpl. by destruct fields.
Qed.

(** ** Expiry of a status record *)

Lemma elapse_live_string (w : World) (k : string) (seconds : N) (p : wire)
    (expires_at : N) :
  live (broker w) k = Some (EString p expires_at) ->
  live (broker (elapse seconds w)) k =
    if (expires_at <=? now (broker w) + seconds)%N
    then None else Some (EString p expires_at).
Proof.
  unfold live, elapse, sleep. simpl.
  destruct (keys (broker w) !! k) as [[q ex|items]|]; [| by destruct items | done].
  destruct (ex <=? now (broker w))%N eqn:Hex; [done|].
  by intros [= -> ->].
Qed.

(** X10: a status record lives for one hour on the server's clock.
    After a status write that reaches the server, a query that reaches the
    server less than 3600 seconds later answers with the record, and any
    query 3600 seconds later or more answers 404, if nothing rewrote the
    record meanwhile. *)
Theorem status_record_expires_after_an_hour
    (w : World) (job_id : string) (st : JobStatus) (p : Z) (seconds : N) :
  call_ok 0 w = true ->
  ((seconds < 3600)%N -> call_ok 1 w = true ->
   fst (get_job_status job_id
          (elapse seconds
             (snd (update_job_status job_id (JobStatus_value st) p None w)))) =
     Ret (VDict (("job_id", VStr job_id)
                   :: status_record (JobStatus_value st) p None))) /\
  ((3600 <= seconds)%N ->
   fst (get_job_status job_id
          (elapse seconds
             (snd (update_job_status job_id (JobStatus_value st) p None w)))) =
     Raise not_found).
Proof.
  unfold call_ok. rewrite <- hd_nth0, <- hd_tl_nth1.
  intros Hf. apply negb_true_iff in Hf.
  rewrite update_job_status_ok by done. cbn [snd].
  set (w1 := set_broker _ (consume w)).
  assert (Hlive : live (broker w1) (job_key job_id) =
                  Some (EString
                          (Encoded (VDict (status_record (JobStatus_value st) p None)))
                          (now (broker w) + 3600)%N))
    by apply live_insert_string.
  pose proof (elapse_live_string w1 (job_key job_id) seconds _ _ Hlive) as Hlater.
  assert (Hnow : now (broker w1) = now (broker w)) by done.
  rewrite Hnow in Hlater.
  split.
  - intros Hlt Hf1. apply negb_true_iff in Hf1.
    assert ((now (broker w) + 3600 <=? now (broker w) + seconds)%N = false) as Hleb
      by (apply N.leb_gt; lia).
    rewrite Hleb in Hlater.
    rewrite (get_job_status_found _ job_id
               (status_record (JobStatus_value st) p None)).
    + done.
    + done.
    + unfold stored_record. by rewrite Hlater.
    + done.
  - intros Hge. apply get_job_status_absent.
    assert ((now (broker w) + 3600 <=? now (broker w) + seconds)%N = true) as Hleb
      by (apply N.leb_le; lia).
    by rewrite Hleb in Hlater.
Qed.

Lemma status_record_expires_after_an_hour_witness :
  fst (get_job_status "job-1"
         (elapse 3599
            (snd (update_job_status "job-1" "pending" 0 None empty_world)))) =
    Ret (VDict [("job_id", VStr "job-1"); ("status", VStr "pending");
                ("progress", VNum 0); ("updated_at", VNone)]) /\
  fst (get_job_status "job-1"
         (elapse 3600
            (snd (update_job_status "job-1" "pending" 0 None empty_world)))) =
    Raise not_found.
Proof.
  destruct (status_record_expires_after_an_hour empty_world "job-1" PENDING 0
              3599) as [Hbefore _]; [reflexivity|].
  destruct (status_record_expires_after_an_hour empty_world "job-1" PENDING 0
              3600) as [_ Hafter]; [reflexivity|].
  split.
  - apply Hbefore; [reflexivity | reflexivity].
  - apply Hafter. discriminate.
Defined.

(** ** Queue length and a failed clear *)

(** X11: [get_queue_length] never raises and leaves the server as it
    was.  When its call reaches the server and the key holds no string it
    returns the number of entries of the list; when the call fails or the
    key holds a string it returns 0, as for an empty queue. *)
Theorem queue_length_reads_queue (w : World) (queue_name : string) :
  broker (snd (get_queue_length queue_name w)) = broker w /\
  (call_ok 0 w = true -> list_key (broker w) queue_name ->
   fst (get_queue_length queue_name w) =
     Ret (length (queue_items (broker w) queue_name))) /\
  (call_ok 0 w = false \/ ~ list_key (broker w) queue_name ->
   fst (get_queue_length queue_name w) = Ret 0).
Proof.
  unfold call_ok. rewrite <- hd_nth0.
  unfold list_key, queue_items, get_queue_length, try_except, redis_call,
    redis_llen.
  destruct (hd false (faults w)); simpl.
  - split; [done|]. split; [done|]. done.
  - destruct (live (broker w) queue_name) as [[p ex|items]|]; simpl;
      (split; [done|]); (split; [done|]); intros [H|H]; try done;
      by destruct H.
Qed.

Lemma queue_length_reads_queue_witness :
  fst (get_queue_length NLP_QUEUE two_waiting) = Ret 2.
Proof.
  destruct (queue_length_reads_queue two_waiting NLP_QUEUE) as (_ & H & _).
  apply H; [reflexivity | exact I].
Defined.

(** X12: when the DEL of clear-queue does not reach the server, the
    endpoint raises a 500 error and the server is as it was: the waiting
    jobs stay on the queue. *)
Theorem failed_clear_keeps_queue (w : World) :
  call_ok 0 w = false ->
  (exists detail,
     fst (clear_processing_queue w) = Raise (HTTPException 500 detail)) /\
  broker (snd (clear_processing_queue w)) = broker w.
Proof.
  unfold call_ok. rewrite <- hd_nth0. intros Hf. apply negb_false_iff in Hf.
  unfold clear_processing_queue, clear_queue, try_except, bind, redis_call.
  rewrite Hf. simpl. eauto.
Qed.

(** Two jobs are waiting and the connection is down. *)
Lemma failed_clear_keeps_queue_witness :
  length
    (queue_items
       (broker (snd (clear_processing_queue
                       {| broker := broker two_waiting; faults := [true];
                          clock := clock two_waiting;
                          errlog := errlog two_waiting |})))
       NLP_QUEUE) = 2.
Proof.
  destruct (failed_clear_keeps_queue
              {| broker := broker two_waiting; faults := [true];
                 clock := clock two_waiting; errlog := errlog two_waiting |})
    as [_ Hsame]; [reflexivity|].
  rewrite Hsame. reflexivity.
Defined.

(** ** Records the pipeline did not write *)

(** X13: what the status query makes of a value under a job key that
    is not a status record.  Text that is not JSON and a list stored under
    the key both read as 404, because the wrapper swallows the error; so
    does a JSON value that Python takes as false; a true JSON value that is
    not an object raises a 500 error. *)
Theorem foreign_record_answers (w : World) (job_id : string) :
  call_ok 0 w = true ->
  (forall text error expires_at,
     live (broker w) (job_key job_id) =
       Some (EString (Malformed text error) expires_at) ->
     fst (get_job_status job_id w) = Raise not_found) /\
  (forall items,
     live (broker w) (job_key job_id) = Some (EList items) ->
     fst (get_job_status job_id w) = Raise not_found) /\
  (forall v expires_at,
     live (broker w) (job_key job_id) = Some (EString (Encoded v) expires_at) ->
     truthy v = false ->
     fst (get_job_status job_id w) = Raise not_found) /\
  (forall v expires_at,
     live (broker w) (job_key job_id) = Some (EString (Encoded v) expires_at) ->
     truthy v = true ->
     (forall fields, v ≠ VDict fields) ->
     exists detail,
       fst (get_job_status job_id w) = Raise (HTTPException 500 detail)).
Proof.
  unfold call_ok. rewrite <- hd_nth0. intros Hf. apply negb_true_iff in Hf.
  unfold get_job_status, RedisService.get_job_status, try_except, bind,
    redis_call, redis_get.
  rewrite Hf.
  split; [|split; [|split]].
  - intros text error ex ->. simpl. by destruct (negb (String.eqb text "")).
  - by intros items ->.
  - intros v ex -> Hfalse. simpl. by rewrite Hfalse.
  - intros v ex -> Htrue Hnot. simpl. rewrite Htrue. simpl.
    destruct v; try (eexists; reflexivity). by destruct (Hnot fields).
Qed.

Lemma foreign_record_answers_witness :
  exists detail,
    fst (get_job_status "job-1"
           {| broker :=
                {| keys := {[ job_key "job-1" :=
                                EString (Encoded (VList [VNum 1])) 10 ]};
                   now := 0 |};
              faults := []; clock := 0; errlog := [] |}) =
      Raise (HTTPException 500 detail).
Proof.
  destruct (foreign_record_answers
              {| broker :=
                   {| keys := {[ job_key "job-1" :=
                                   EString (Encoded (VList [VNum 1])) 10 ]};
                      now := 0 |};
                 faults := []; clock := 0; errlog := [] |} "job-1")
    as (_ & _ & _ & H); [reflexivity|].
  apply (H (VList [VNum 1]) 10%N); [reflexivity | reflexivity | discriminate].
Defined.

(** ** The cache *)



(** ** The batch paths *)

Section BatchProperties.

Variable nlp_processor : Document.t -> outcome value.
Variable SPACY_MODEL : string.
Variable BATCH_SIZE : Z.

Abbreviation owed := (batch_result_of nlp_processor SPACY_MODEL).

Lemma process_in_batch_run (document : Document.t) (w : World) :
  exists r w',
    app.process_in_batch nlp_processor SPACY_MODEL document w = (Ret r, w') /\
    owed document r /\
    broker w' = broker w.
Proof.
  unfold app.process_in_batch, try_except, bind, lift, utcnow, log_error, ret,
    batch_result_of, analysis_or_empty.
  destruct (nlp_processor document) as [analysis|e]; simpl;
    eexists _, _; (split; [reflexivity|]); done.
Qed.

Lemma process_each_run (documents : list Document.t) :
  forall (results : list ProcessedDocument.t) (w : World),
    exists rs w',
      app.process_each nlp_processor SPACY_MODEL documents results w =
        (Ret (results ++ rs)%list, w') /\
      Forall2 owed documents rs /\
      broker w' = broker w.
Proof.
  induction documents as [|document rest IH]; intros results w.
  - exists [], w. simpl. by rewrite app_nil_r.
  - destruct (process_in_batch_run document w) as (r & w1 & Hrun & Hr & Hb).
    destruct (IH (results ++ [r])%list w1) as (rs & w2 & Hrest & Hrs & Hb2).
    exists (r :: rs), w2. simpl. unfold bind. rewrite Hrun, Hrest.
    split; [by rewrite <- app_assoc|]. split; [by constructor|]. congruence.
Qed.

(** X15: a batch within the limit never fails as a whole.  The
    endpoint returns one result per document, in the order of the request;
    each result carries its document and the analyzer's analysis of it, or
    the empty analysis when the analyzer raised on that document; the server
    is not touched. *)
Theorem batch_processes_each_document (documents : list Document.t) (w : World) :
  (Z.of_nat (length documents) <= BATCH_SIZE)%Z ->
  exists results,
    fst (app.process_documents_batch nlp_processor SPACY_MODEL BATCH_SIZE
           documents w) = Ret results /\
    Forall2 owed documents results /\
    broker (snd (app.process_documents_batch nlp_processor SPACY_MODEL BATCH_SIZE
                   documents w)) = broker w.
Proof.
  intros Hle. unfold app.process_documents_batch, try_except.
  apply Z.ltb_ge in Hle as ->.
  destruct (process_each_run documents [] w) as (rs & w' & -> & Hrs & Hb).
  exists rs. by simpl.
Qed.

(** X16: a batch over the limit is answered with status 500, not with
    the 400 the size check raises: the check sits inside the [try] whose
    handler turns every exception into a 500, the text of the 400 becoming
    part of its detail.  No document is processed: the clock is not read and
    the server is not touched. *)
Theorem oversized_batch_is_a_500 (documents : list Document.t) (w : World) :
  (BATCH_SIZE < Z.of_nat (length documents))%Z ->
  fst (app.process_documents_batch nlp_processor SPACY_MODEL BATCH_SIZE
         documents w) =
    Raise (HTTPException 500
             ("Batch processing failed: " +:+
              str_exn (HTTPException 400
                         ("Batch size exceeds maximum of "
                            +:+ pretty BATCH_SIZE)))) /\
  clock (snd (app.process_documents_batch nlp_processor SPACY_MODEL BATCH_SIZE
                documents w)) = clock w /\
  broker (snd (app.process_documents_batch nlp_processor SPACY_MODEL BATCH_SIZE
                 documents w)) = broker w.
Proof.
  intros Hlt. unfold app.process_documents_batch, try_except.
  by apply Z.ltb_lt in Hlt as ->.
Qed.

Lemma process_batch_from_run (documents : list Document.t) :
  forall (results : list value) (w : World),
    exists w',
      NLPProcessor.process_batch_from nlp_processor documents results w =
        (Ret (results ++ map (fun doc => analysis_or_empty (nlp_processor doc))
                           documents)%list, w') /\
      broker w' = broker w.
Proof.
  induction documents as [|doc rest IH]; intros results w.
  - exists w. simpl. by rewrite app_nil_r.
  - simpl. unfold bind at 1.
    unfold NLPProcessor.process_or_empty, try_except, lift, bind, log_error, ret.
    destruct (nlp_processor doc) as [analysis|e]; simpl;
      match goal with |- context [NLPProcessor.process_batch_from _ _ ?r ?w0] =>
        destruct (IH r w0) as (w' & -> & Hb) end;
      exists w'; by rewrite <- app_assoc.
Qed.

(** X17: [process_batch] never raises and returns one analysis per
    document, in order: the analyzer's, or the empty analysis for a document
    on which the analyzer raised. *)
Theorem process_batch_isolates_failures (documents : list Document.t) (w : World) :
  fst (NLPProcessor.process_batch nlp_processor documents w) =
    Ret (map (fun doc => analysis_or_empty (nlp_processor doc)) documents) /\
  broker (snd (NLPProcessor.process_batch nlp_processor documents w)) = broker w.
Proof.
  unfold NLPProcessor.process_batch.
  by destruct (process_batch_from_run documents [] w) as (w' & -> & Hb).
Qed.

End BatchProperties.

Lemma batch_processes_each_document_witness :
  exists results,
    fst (app.process_documents_batch failing_analyzer "en_core_web_sm" 10
           [sample_document "d1" "first"; sample_document "d2" "second"]
           empty_world) = Ret results /\
    length results = 2.
Proof.
  destruct (batch_processes_each_document failing_analyzer "en_core_web_sm" 10
              [sample_document "d1" "first"; sample_document "d2" "second"]
              empty_world) as (results & Hret & Hall & _); [simpl; lia|].
  exists results. split; [exact Hret|].
  symmetry. exact (Forall2_length _ _ _ Hall).
Defined.

Lemma oversized_batch_is_a_500_witness :
  exists detail,
    fst (app.process_documents_batch sample_analyzer "en_core_web_sm" 1
           [sample_document "d1" "first"; sample_document "d2" "second"]
           empty_world) = Raise (HTTPException 500 detail).
Proof.
  destruct (oversized_batch_is_a_500 sample_analyzer "en_core_web_sm" 1
              [sample_document "d1" "first"; sample_document "d2" "second"]
              empty_world) as (Hret & _); [simpl; lia|].
  eexists. exact Hret.
Defined.

(** ** Duplicates and order in the analyzer's helpers *)

Section KeepFirst.

Context {A K : Type} `{Countable K}.
Variable key : A -> K.

Lemma keep_first_fresh (items : list A) :
  forall (seen : gset K) (x : A),
    x ∈ keep_first key seen items -> key x ∉ seen.
Proof.
  induction items as [|item rest IH]; intros seen x Hx; simpl in Hx.
  - by apply elem_of_nil in Hx.
  - destruct (decide (key item ∈ seen)) as [Hin|Hout]; [by apply IH in Hx|].
    apply elem_of_cons in Hx as [->|Hx]; [done|].
    apply IH in Hx. set_solver.
Qed.

Lemma keep_first_NoDup (items : list A) :
  forall seen : gset K, NoDup (map key (keep_first key seen items)).
Proof.
  induction items as [|item rest IH]; intros seen; simpl.
  - constructor.
  - destruct (decide (key item ∈ seen)) as [Hin|Hout]; [apply IH|].
    simpl. constructor; [|apply IH].
    intros Hin. apply list_elem_of_fmap in Hin as (y & Hkey & Hy).
    apply keep_first_fresh in Hy. set_solver.
Qed.

Lemma keep_first_sublist (items : list A) :
  forall seen : gset K, sublist (keep_first key seen items) items.
Proof.
  induction items as [|item rest IH]; intros seen; simpl.
  - constructor.
  - destruct (decide (key item ∈ seen)).
    + apply sublist_cons, IH.
    + apply sublist_skip, IH.
Qed.

Lemma keep_first_covers (items : list A) :
  forall (seen : gset K) (x : A),
    x ∈ items -> key x ∉ seen ->
    exists y, y ∈ keep_first key seen items /\ key y = key x.
Proof.
  induction items as [|item rest IH]; intros seen x Hx Hfresh.
  - by apply elem_of_nil in Hx.
  - simpl. destruct (decide (key item ∈ seen)) as [Hin|Hout].
    + apply elem_of_cons in Hx as [->|Hx]; [done|].
      by apply IH.
    + destruct (decide (key x = key item)) as [Heq|Hne].
      * exists item. split; [apply elem_of_cons; by left | done].
      * apply elem_of_cons in Hx as [->|Hx]; [done|].
        destruct (IH ({[key item]} ∪ seen) x Hx) as (y & Hy & Hkey).
        { intros [Heq%elem_of_singleton|Hin]%elem_of_union; done. }
        exists y. split; [apply elem_of_cons; by right | done].
Qed.

End KeepFirst.

Section SortedByScore.

Context {A : Type}.
Variable score : A -> float.

Lemma insert_by_score_perm (x : A) (items : list A) :
  insert_by_score score x items ≡ₚ x :: items.
Proof.
  induction items as [|y rest IH]; simpl; [done|].
  destruct (QArith_base.Qle_bool (score y) (score x)); [done|].
  by rewrite IH, Permutation_swap.
Qed.

Lemma sorted_by_score_perm (items : list A) :
  sorted_by_score score items ≡ₚ items.
Proof.
  induction items as [|x rest IH]; simpl; [done|].
  by rewrite insert_by_score_perm, IH.
Qed.

Lemma insert_by_score_sorted (x : A) (items : list A) :
  Sorted (score_not_below score) items ->
  Sorted (score_not_below score) (insert_by_score score x items).
Proof.
  induction 1 as [|y rest Hsorted IH Hhd]; simpl.
  - by repeat constructor.
  - destruct (QArith_base.Qle_bool (score y) (score x)) eqn:Hle.
    + apply QArith_base.Qle_bool_iff in Hle.
      constructor; [by constructor|]. by constructor.
    + assert (Hlt : QArith_base.Qle (score x) (score y)).
      { apply QArith_base.Qlt_le_weak, QArith_base.Qnot_le_lt.
        intros Hle'. apply QArith_base.Qle_bool_iff in Hle'. congruence. }
      constructor; [done|].
      destruct rest as [|z rest']; simpl.
      * by constructor.
      * destruct (QArith_base.Qle_bool (score z) (score x)); constructor;
          [done|]. by inversion Hhd.
Qed.

Lemma sorted_by_score_sorted (items : list A) :
  Sorted (score_not_below score) (sorted_by_score score items).
Proof.
  induction items as [|x rest IH]; simpl; [constructor|].
  by apply insert_by_score_sorted.
Qed.

Lemma score_not_below_trans : Transitive (score_not_below score).
Proof.
  intros a b c Hab Hbc. unfold score_not_below in *.
  by apply (QArith_base.Qle_trans _ (score b)).
Qed.

Lemma StronglySorted_take (R : relation A) (n : nat) (items : list A) :
  StronglySorted R items -> StronglySorted R (take n items).
Proof.
  intros Hs. revert n. induction Hs as [|x rest Hs IH Hall]; intros [|n]; simpl;
    try constructor; [apply IH | by apply Forall_take].
Qed.

End SortedByScore.

Section Analyzer.

Variable str_strip : string -> string.
Variable str_lower : string -> string.
Variable str_len : string -> nat.
Variable _calculate_confidence : Span.t -> float.

Abbreviation extracted :=
  (EntityExtractor.extract_entities str_strip str_lower str_len
     _calculate_confidence).
Abbreviation built :=
  (EntityExtractor.built_entities str_strip str_len _calculate_confidence).
Abbreviation key_of := (EntityExtractor.entity_key str_lower).

Lemma built_entities_long (ents : list Span.t) :
  Forall (fun entity => 2 <= str_len (Entity.text entity)) (built ents).
Proof.
  induction ents as [|ent rest IH]; simpl; [constructor|].
  destruct (str_len (str_strip (Span.text ent)) <? 2)%nat eqn:Hlen; [done|].
  constructor; [|done]. simpl. apply Nat.ltb_ge in Hlen. lia.
Qed.

(** X18: the entities [extract_entities] returns are pairwise different
    in lower-cased text and type; they are entities the first loop built, in
    their order; no built entity is lost but for an earlier one with the
    same lower-cased text and type; and every returned text has at least two
    characters. *)
Theorem extracted_entities_are_unique (ents : list Span.t) :
  NoDup (map key_of (extracted ents)) /\
  sublist (extracted ents) (built ents) /\
  (forall entity, entity ∈ built ents ->
     exists kept, kept ∈ extracted ents /\ key_of kept = key_of entity) /\
  Forall (fun entity => 2 <= str_len (Entity.text entity)) (extracted ents).
Proof.
  unfold EntityExtractor.extract_entities.
  split; [apply keep_first_NoDup|].
  split; [apply keep_first_sublist|].
  split.
  - intros entity Hin. apply keep_first_covers; [done|set_solver].
  - apply Forall_forall. intros entity Hin.
    pose proof (built_entities_long ents) as Hlong.
    rewrite Forall_forall in Hlong. apply Hlong.
    eapply elem_of_sublist; [exact Hin | apply keep_first_sublist].
Qed.

Abbreviation key_phrases :=
  (NLPProcessor._extract_key_phrases str_strip str_lower str_len).
Abbreviation collected := (NLPProcessor.collected_phrases str_strip str_len).

(** X19: [_extract_key_phrases] returns at most ten phrases, pairwise
    different once lower-cased, each of them collected from the noun chunks
    or the entities of the document, and ordered by score, best first. *)
Theorem key_phrases_are_ranked (noun_chunks ents : list Span.t) :
  length (key_phrases noun_chunks ents) <= 10 /\
  NoDup (map (fun p => str_lower (KeyPhrase.phrase p))
           (key_phrases noun_chunks ents)) /\
  (forall p, p ∈ key_phrases noun_chunks ents -> p ∈ collected noun_chunks ents) /\
  StronglySorted (score_not_below KeyPhrase.score) (key_phrases noun_chunks ents).
Proof.
  unfold NLPProcessor._extract_key_phrases.
  set (unique := keep_first _ ∅ (collected noun_chunks ents)).
  split; [rewrite length_take; lia|]. split; [|split].
  - assert (Hperm : map (fun p => str_lower (KeyPhrase.phrase p))
                      (sorted_by_score KeyPhrase.score unique) ≡ₚ
                    map (fun p => str_lower (KeyPhrase.phrase p)) unique)
      by apply Permutation_map, sorted_by_score_perm.
    eapply sublist_NoDup; [|apply (fmap_sublist _), (sublist_take _ 10)].
    rewrite Hperm. apply keep_first_NoDup.
  - intros p Hp. apply elem_of_take in Hp as (i & Hp & _).
    apply list_elem_of_lookup_2 in Hp. rewrite sorted_by_score_perm in Hp.
    eapply elem_of_sublist; [exact Hp | apply keep_first_sublist].
  - apply StronglySorted_take, Sorted_StronglySorted;
      [apply score_not_below_trans | apply sorted_by_score_sorted].
Qed.

End Analyzer.
